(** * Panel locators of panel-plots: a shallow embedding of
      [src/panels/_locators.py] and the properties of its layout geometry.

    Numbers.  The Python code is written over duck-typed numbers; grid
    shapes and panel indices are Python integers, modelled as [Z].  The
    code is embedded twice.  The main embedding takes lengths as exact
    rationals [Q], compared with [Qeq] ([==]): it is the code's control
    flow, checks and formulas, and its arithmetic is the one Python performs
    on [fractions.Fraction] lengths in [PanelSizeLocator]; it neither rounds
    nor overflows.  Module [Double] is the same code with every length a
    binary64 double, the type the docstrings name: there each operation
    rounds and an int too large for a double raises [OverflowError].
    Statements that depend on rounding or on overflow are settled on
    [Double].

    Effects.  The code raises [ValueError], [ZeroDivisionError] and, on
    doubles, [OverflowError], and emits diagnostics through [warnings.warn].
    A computation is a pair of the warnings emitted so far and an outcome
    that is either a value or the exception raised.

    Scope.  [PanelSizeLocator.__init__], [panel_position],
    [panel_position_iterator], [FigureSizeLocator.__init__] and
    [FigureSizeLocator.panel_size] are embedded.  [figsize] and [figsize_in]
    only forward to [convert_units] of the [_units] module and are left
    out. *)

From Stdlib Require Import ZArith QArith Qfield List Sorted String Ascii Bool Lia Lqa.
From Stdlib Require Import Permutation.
From Stdlib Require Import PrimFloat SpecFloat FloatOps.
Import ListNotations.

Local Open Scope Z_scope.

(** ** Exceptions, warnings and the computation monad *)

Inductive exn : Type :=
| ValueError (msg : string)
| ZeroDivisionError
| OverflowError.

Inductive result (A : Type) : Type :=
| Ok (a : A)
| Raise (e : exn).

Arguments Ok {A} a.
Arguments Raise {A} e.

(** Warnings emitted (oldest first), then the outcome. *)
Definition Py (A : Type) : Type := (list string * result A)%type.

Definition ret {A} (a : A) : Py A := ([], Ok a).

Definition raise {A} (e : exn) : Py A := ([], Raise e).

Definition warn (msg : string) : Py unit := ([msg], Ok tt).

Definition bind {A B} (m : Py A) (k : A -> Py B) : Py B :=
  match m with
  | (w, Raise e) => (w, Raise e)
  | (w, Ok a) => let (w', r) := k a in ((w ++ w')%list, r)
  end.

Notation "x <- m ;; k" := (bind m (fun x => k))
  (at level 61, m at next level, right associativity).
Notation "m ;;; k" := (bind m (fun _ => k))
  (at level 61, right associativity).

Definition warnings {A} (m : Py A) : list string := fst m.
Definition outcome {A} (m : Py A) : result A := snd m.

(** ** The Python built-ins the module uses *)

Module Py_builtins.

(** [len(l)] *)
Definition len {A} (l : list A) : Z := Z.of_nat (List.length l).

(** [l * n]: a non-positive [n] gives the empty list. *)
Definition list_mul {A} (l : list A) (n : Z) : list A :=
  List.concat (List.repeat l (Z.to_nat n)).

(** [l[:n]]: a negative [n] counts from the end. *)
Definition slice_to {A} (l : list A) (n : Z) : list A :=
  if n <? 0 then firstn (Z.to_nat (len l + n)) l
  else firstn (Z.to_nat n) l.

(** [sum(l)]: starts from 0 and adds from the left. *)
Definition sum (l : list Q) : Q := fold_left Qplus l 0%Q.

(** [range(n)] *)
Definition range (n : Z) : list Z := map Z.of_nat (seq 0 (Z.to_nat n)).

(** [itertools.product(g0, g1)]: the rightmost iterable advances fastest. *)
Definition product {A B} (g0 : list A) (g1 : list B) : list (A * B) :=
  flat_map (fun a => map (fun b => (a, b)) g1) g0.

(** [x[i]] on a pair; only the indices 0 and 1 are ever used. *)
Definition tuple_get {A} (x : A * A) (i : Z) : A :=
  if i =? 0 then fst x else snd x.

(** [a / b] under [from __future__ import division]. *)
Definition truediv (a b : Q) : Py Q :=
  if Qeq_bool b 0 then raise ZeroDivisionError else ret (a / b)%Q.

(** Truth value of a number: zero is false. *)
Definition truthy (a : Q) : bool := negb (Qeq_bool a 0).

(** [a or d] where [a] is a number or [None]. *)
Definition or_else (a : option Q) (d : Q) : Q :=
  match a with
  | None => d
  | Some v => if truthy v then v else d
  end.

End Py_builtins.
Import Py_builtins.

(** ** Messages *)

Module Msg.
Local Open Scope string_scope.

Definition dq : string := String (ascii_of_nat 34) EmptyString.
Definition quoted (s : string) : string := dq ++ s ++ dq.

Definition hsep_length : string :=
  "If hsep is a sequence, it must have one fewer"
  ++ " value than the number of columns".

Definition vsep_length : string :=
  "If vsep is a sequence, it must have one fewer"
  ++ " value than the number of rows".

Definition bad_order : string :=
  "the order keyword must be either " ++ quoted "row" ++ " or "
  ++ quoted "column".

Definition no_dimension : string :=
  "one or both of the " ++ quoted "figwidth" ++ " and "
  ++ quoted "figheight" ++ " keywords must be used".

Definition ratio_ignored : string :=
  "the " ++ quoted "panelratio" ++ " keyword is ignored when both the "
  ++ quoted "figwidth" ++ " and " ++ quoted "figheight"
  ++ " keywords are used".

Definition dimensions_too_small : string :=
  "the specified dimensions are not large enough to"
  ++ "locate panels with the desired separation and padding".

Definition height_too_small : string :=
  "the specified figure height is not tall enough to "
  ++ "locate panels with the desired separation and padding".

Definition width_too_small : string :=
  "the specified figure width is not wide enough to "
  ++ "locate panels with the desired separation and padding".
End Msg.

(** ** Data *)

(** A separation argument: a single number, or a sequence
    ([isinstance(hsep, collections.abc.Sequence)]). *)
Inductive sep : Type :=
| Scalar (v : Q)
| Sequence (vs : list Q).

(** The rectangle [(x, y, width, height)] in figure coordinates. *)
Definition rect : Type := (Q * Q * Q * Q)%type.

Record PanelSizeLocator : Type := mkPanelSizeLocator {
  rows : Z;
  columns : Z;
  panelwidth : Q;
  panelheight : Q;
  hsep : list Q;
  vsep : list Q;
  padleft : Q;
  padright : Q;
  padtop : Q;
  padbottom : Q;
  units : string;
  figwidth : Q;
  figheight : Q;
  panelwidth_fig : Q;
  panelheight_fig : Q
}.

(** ** PanelSizeLocator *)

(** The separation block that [__init__] and [panel_size] both run, once for
    [hsep] against [columns - 1] and once for [vsep] against [rows - 1]. *)
Definition sep_sequence (s : sep) (n : Z) (msg : string) : Py (list Q) :=
  match s with
  | Sequence vs =>
      if negb (len vs =? n) then raise (ValueError msg) else ret vs
  | Scalar v => ret (list_mul [v] n)
  end.

Definition PanelSizeLocator_init (rows columns : Z) (panelwidth panelheight : Q)
    (hsep vsep : sep) (padleft padright padtop padbottom : Q) (units : string)
    : Py PanelSizeLocator :=
  self_hsep <- sep_sequence hsep (columns - 1) Msg.hsep_length ;;
  self_vsep <- sep_sequence vsep (rows - 1) Msg.vsep_length ;;
  let self_figwidth :=
    (padleft + inject_Z columns * panelwidth + sum self_hsep + padright)%Q in
  let self_figheight :=
    (padtop + inject_Z rows * panelheight + sum self_vsep + padbottom)%Q in
  self_panelwidth_fig <- truediv panelwidth self_figwidth ;;
  self_panelheight_fig <- truediv panelheight self_figheight ;;
  ret {| rows := rows; columns := columns;
         panelwidth := panelwidth; panelheight := panelheight;
         hsep := self_hsep; vsep := self_vsep;
         padleft := padleft; padright := padright;
         padtop := padtop; padbottom := padbottom;
         units := units;
         figwidth := self_figwidth; figheight := self_figheight;
         panelwidth_fig := self_panelwidth_fig;
         panelheight_fig := self_panelheight_fig |}.

Definition panel_position (self : PanelSizeLocator) (row column : Z) : Py rect :=
  let x := (self.(padleft) + self.(panelwidth) * inject_Z column
            + sum (slice_to self.(hsep) column))%Q in
  let y := (self.(figheight) - self.(padtop)
            - self.(panelheight) * inject_Z (row + 1)
            - sum (slice_to self.(vsep) row))%Q in
  x_fig <- truediv x self.(figwidth) ;;
  y_fig <- truediv y self.(figheight) ;;
  ret (x_fig, y_fig, self.(panelwidth_fig), self.(panelheight_fig)).

(** The generator is modelled by the list of its items, each one the call of
    [panel_position] that producing the item runs. *)
Definition panel_position_iterator (self : PanelSizeLocator) (order : string)
    : Py (list (Py rect)) :=
  let row_gen := range self.(rows) in
  let col_gen := range self.(columns) in
  sel <- (if String.eqb order "row" then ret (0, 1, row_gen, col_gen)
          else if String.eqb order "column" then ret (1, 0, col_gen, row_gen)
          else raise (ValueError Msg.bad_order)) ;;
  let '(i0, i1, g0, g1) := sel in
  ret (map (fun x => panel_position self (tuple_get x i0) (tuple_get x i1))
           (product g0 g1)).

(** ** FigureSizeLocator *)

Definition panel_size (rows columns : Z) (figwidth figheight panelratio : option Q)
    (hsep vsep : sep) (padleft padright padtop padbottom : Q) : Py (Q * Q) :=
  match figwidth, figheight with
  | None, None => raise (ValueError Msg.no_dimension)
  | _, _ =>
    hsep <- sep_sequence hsep (columns - 1) Msg.hsep_length ;;
    vsep <- sep_sequence vsep (rows - 1) Msg.vsep_length ;;
    match figwidth, figheight with
    | Some figwidth, Some figheight =>
        (match panelratio with
         | Some _ => warn Msg.ratio_ignored
         | None => ret tt
         end) ;;;
        panelwidth <-
          truediv (figwidth - sum hsep - padleft - padright)%Q (inject_Z columns) ;;
        panelheight <-
          truediv (figheight - sum vsep - padtop - padbottom)%Q (inject_Z rows) ;;
        if Qle_bool panelwidth 0 || Qle_bool panelheight 0
        then raise (ValueError Msg.dimensions_too_small)
        else ret (panelwidth, panelheight)
    | None, Some figheight =>
        panelheight <-
          truediv (figheight - sum vsep - padtop - padbottom)%Q (inject_Z rows) ;;
        if Qle_bool panelheight 0
        then raise (ValueError Msg.height_too_small)
        else ret ((panelheight * or_else panelratio 1)%Q, panelheight)
    | Some figwidth, None =>
        panelwidth <-
          truediv (figwidth - sum hsep - padleft - padright)%Q (inject_Z columns) ;;
        if Qle_bool panelwidth 0
        then raise (ValueError Msg.width_too_small)
        else
          panelheight <- truediv panelwidth (or_else panelratio 1) ;;
          ret (panelwidth, panelheight)
    | None, None => (* excluded by the first test *)
        raise (ValueError Msg.no_dimension)
    end
  end.

Definition FigureSizeLocator_init (rows columns : Z)
    (figwidth figheight panelratio : option Q) (hsep vsep : sep)
    (padleft padright padtop padbottom : Q) (units : string)
    : Py PanelSizeLocator :=
  size <- panel_size rows columns figwidth figheight panelratio hsep vsep
            padleft padright padtop padbottom ;;
  let '(panelwidth, panelheight) := size in
  PanelSizeLocator_init rows columns panelwidth panelheight hsep vsep
    padleft padright padtop padbottom units.

(** ** Locators the constructors can return *)

(** [constructed L]: some call of one of the two constructors returned [L]. *)
Inductive constructed (L : PanelSizeLocator) : Prop :=
| by_panel_size (rows columns : Z) (panelwidth panelheight : Q)
    (hsep vsep : sep) (padleft padright padtop padbottom : Q) (units : string) :
    outcome (PanelSizeLocator_init rows columns panelwidth panelheight
               hsep vsep padleft padright padtop padbottom units) = Ok L ->
    constructed L
| by_figure_size (rows columns : Z) (figwidth figheight panelratio : option Q)
    (hsep vsep : sep) (padleft padright padtop padbottom : Q) (units : string) :
    outcome (FigureSizeLocator_init rows columns figwidth figheight panelratio
               hsep vsep padleft padright padtop padbottom units) = Ok L ->
    constructed L.

(** What [__init__] establishes about the attributes it sets. *)
Record well_formed (L : PanelSizeLocator) : Prop := {
  wf_hsep_len : len L.(hsep) = Z.max 0 (L.(columns) - 1);
  wf_vsep_len : len L.(vsep) = Z.max 0 (L.(rows) - 1);
  wf_figwidth :
    L.(figwidth) = (L.(padleft) + inject_Z L.(columns) * L.(panelwidth)
                    + sum L.(hsep) + L.(padright))%Q;
  wf_figheight :
    L.(figheight) = (L.(padtop) + inject_Z L.(rows) * L.(panelheight)
                     + sum L.(vsep) + L.(padbottom))%Q;
  wf_figwidth_nonzero : ~ (L.(figwidth) == 0)%Q;
  wf_figheight_nonzero : ~ (L.(figheight) == 0)%Q;
  wf_panelwidth_fig : L.(panelwidth_fig) = (L.(panelwidth) / L.(figwidth))%Q;
  wf_panelheight_fig : L.(panelheight_fig) = (L.(panelheight) / L.(figheight))%Q
}.

(** The locator of the specification's running example: 2 rows, 3 columns,
    panels of 10 by 20, separations 1 and 2, padding 5 on every side. *)
Definition example_locator : PanelSizeLocator :=
  mkPanelSizeLocator 2 3 10 20 [1; 1]%Q [2]%Q 5 5 5 5 "mm" 42 52
    (10 # 42) (20 # 52).

(** ** Enumeration orders *)

(** Row-major order on index pairs (row, column): rows ascending, and
    within a row the columns ascending. *)
Definition row_major_lt (p q : Z * Z) : Prop :=
  fst p < fst q \/ (fst p = fst q /\ snd p < snd q).

(** Column-major order: columns ascending, and within a column the rows
    ascending. *)
Definition column_major_lt (p q : Z * Z) : Prop :=
  snd p < snd q \/ (snd p = snd q /\ fst p < fst q).

(** [l] lists every index pair of a [rows] by [columns] grid, and only
    those, each once. *)
Definition covers_once (rows columns : Z) (l : list (Z * Z)) : Prop :=
  NoDup l /\
  forall r c : Z, In (r, c) l <-> 0 <= r < rows /\ 0 <= c < columns.

(** The items of the generator for the index pairs [l], in the order of [l]. *)
Definition positions_of (L : PanelSizeLocator) (l : list (Z * Z))
    : list (Py rect) :=
  map (fun rc => panel_position L (fst rc) (snd rc)) l.

(** The call fails with a [ValueError]. *)
Definition raises_ValueError {A} (m : Py A) : Prop :=
  exists msg : string, outcome m = Raise (ValueError msg).

(** The locator that [FigureSizeLocator] returns for the same example, given
    as a figure of 42 by 52; its panel size is the pair of quotients 30/3
    and 40/2 that [panel_size] computes. *)
Definition example_figure_locator : PanelSizeLocator :=
  mkPanelSizeLocator 2 3 (30 # 3) (40 # 2) [1; 1]%Q [2]%Q 5 5 5 5 "mm"
    (126 # 3) (104 # 2) (90 # 378) (80 # 208).

(** Rectangles with equal coordinates, as rational numbers. *)
Definition rect_eq (a b : rect) : Prop :=
  let '(ax, ay, aw, ah) := a in
  let '(bx, by_, bw, bh) := b in
  (ax == bx /\ ay == by_ /\ aw == bw /\ ah == bh)%Q.

(** The panel width that a figure width leaves once separations and
    paddings are taken off, and likewise the panel height. *)
Definition width_left (columns : Z) (figwidth : Q) (hsep : list Q)
    (padleft padright : Q) : Q :=
  ((figwidth - sum hsep - padleft - padright) / inject_Z columns)%Q.

Definition height_left (rows : Z) (figheight : Q) (vsep : list Q)
    (padtop padbottom : Q) : Q :=
  ((figheight - sum vsep - padtop - padbottom) / inject_Z rows)%Q.

(** ** The same code on doubles *)

(** The docstrings type every length as a float.  This module is the code
    once more with every length a binary64 double ([PrimFloat.float], IEEE
    754 operations rounding to nearest even) and rows, columns and indices
    Python ints.  An int that meets a double is converted first, which
    raises [OverflowError] when it is too large; sums, differences and
    products of doubles never raise; a division raises [ZeroDivisionError]
    exactly when the divisor is zero.  A default argument [0] is the double
    [0], to which the int is converted before its first use. *)
Module Double.

(** [float(n)], also the implicit conversion of an int operand: the nearest
    double, ties to even, and [OverflowError] past the largest double. *)
Definition float_of_int (n : Z) : Py float :=
  let f := SF2Prim (binary_normalize prec emax n 0 false) in
  if is_infinity f then raise OverflowError else ret f.

(** [a / b] *)
Definition truediv (a b : float) : Py float :=
  if (b =? 0)%float then raise ZeroDivisionError else ret (a / b)%float.

(** [sum(l)]: starts from 0 and adds from the left.  (An interpreter that
    compensates the rounding of long float sums gives the same result on the
    lists of at most one entry that the examples below use.) *)
Definition sum (l : list float) : float := fold_left PrimFloat.add l 0%float.

(** Truth value of a double: zero is false. *)
Definition truthy (a : float) : bool := negb (a =? 0)%float.

(** [a or d] *)
Definition or_else (a : option float) (d : float) : float :=
  match a with
  | None => d
  | Some v => if truthy v then v else d
  end.

Inductive sep : Type :=
| Scalar (v : float)
| Sequence (vs : list float).

Definition rect : Type := (float * float * float * float)%type.

Record PanelSizeLocator : Type := mkPanelSizeLocator {
  rows : Z;
  columns : Z;
  panelwidth : float;
  panelheight : float;
  hsep : list float;
  vsep : list float;
  padleft : float;
  padright : float;
  padtop : float;
  padbottom : float;
  units : string;
  figwidth : float;
  figheight : float;
  panelwidth_fig : float;
  panelheight_fig : float
}.

Definition sep_sequence (s : sep) (n : Z) (msg : string) : Py (list float) :=
  match s with
  | Sequence vs =>
      if negb (len vs =? n) then raise (ValueError msg) else ret vs
  | Scalar v => ret (list_mul [v] n)
  end.

Definition PanelSizeLocator_init (rows columns : Z)
    (panelwidth panelheight : float) (hsep vsep : sep)
    (padleft padright padtop padbottom : float) (units : string)
    : Py PanelSizeLocator :=
  self_hsep <- sep_sequence hsep (columns - 1) Msg.hsep_length ;;
  self_vsep <- sep_sequence vsep (rows - 1) Msg.vsep_length ;;
  columns_f <- float_of_int columns ;;
  let self_figwidth :=
    (padleft + columns_f * panelwidth + sum self_hsep + padright)%float in
  rows_f <- float_of_int rows ;;
  let self_figheight :=
    (padtop + rows_f * panelheight + sum self_vsep + padbottom)%float in
  self_panelwidth_fig <- truediv panelwidth self_figwidth ;;
  self_panelheight_fig <- truediv panelheight self_figheight ;;
  ret {| rows := rows; columns := columns;
         panelwidth := panelwidth; panelheight := panelheight;
         hsep := self_hsep; vsep := self_vsep;
         padleft := padleft; padright := padright;
         padtop := padtop; padbottom := padbottom;
         units := units;
         figwidth := self_figwidth; figheight := self_figheight;
         panelwidth_fig := self_panelwidth_fig;
         panelheight_fig := self_panelheight_fig |}.

Definition panel_position (self : PanelSizeLocator) (row column : Z) : Py rect :=
  column_f <- float_of_int column ;;
  let x := (self.(padleft) + self.(panelwidth) * column_f
            + sum (slice_to self.(hsep) column))%float in
  row1_f <- float_of_int (row + 1) ;;
  let y := (self.(figheight) - self.(padtop) - self.(panelheight) * row1_f
            - sum (slice_to self.(vsep) row))%float in
  x_fig <- truediv x self.(figwidth) ;;
  y_fig <- truediv y self.(figheight) ;;
  ret (x_fig, y_fig, self.(panelwidth_fig), self.(panelheight_fig)).

Definition panel_size (rows columns : Z)
    (figwidth figheight panelratio : option float) (hsep vsep : sep)
    (padleft padright padtop padbottom : float) : Py (float * float) :=
  match figwidth, figheight with
  | None, None => raise (ValueError Msg.no_dimension)
  | _, _ =>
    hsep <- sep_sequence hsep (columns - 1) Msg.hsep_length ;;
    vsep <- sep_sequence vsep (rows - 1) Msg.vsep_length ;;
    match figwidth, figheight with
    | Some figwidth, Some figheight =>
        (match panelratio with
         | Some _ => warn Msg.ratio_ignored
         | None => ret tt
         end) ;;;
        columns_f <- float_of_int columns ;;
        panelwidth <-
          truediv (figwidth - sum hsep - padleft - padright)%float columns_f ;;
        rows_f <- float_of_int rows ;;
        panelheight <-
          truediv (figheight - sum vsep - padtop - padbottom)%float rows_f ;;
        if (panelwidth <=? 0)%float || (panelheight <=? 0)%float
        then raise (ValueError Msg.dimensions_too_small)
        else ret (panelwidth, panelheight)
    | None, Some figheight =>
        rows_f <- float_of_int rows ;;
        panelheight <-
          truediv (figheight - sum vsep - padtop - padbottom)%float rows_f ;;
        if (panelheight <=? 0)%float
        then raise (ValueError Msg.height_too_small)
        else ret ((panelheight * or_else panelratio 1)%float, panelheight)
    | Some figwidth, None =>
        columns_f <- float_of_int columns ;;
        panelwidth <-
          truediv (figwidth - sum hsep - padleft - padright)%float columns_f ;;
        if (panelwidth <=? 0)%float
        then raise (ValueError Msg.width_too_small)
        else
          panelheight <- truediv panelwidth (or_else panelratio 1) ;;
          ret (panelwidth, panelheight)
    | None, None => (* excluded by the first test *)
        raise (ValueError Msg.no_dimension)
    end
  end.

Definition FigureSizeLocator_init (rows columns : Z)
    (figwidth figheight panelratio : option float) (hsep vsep : sep)
    (padleft padright padtop padbottom : float) (units : string)
    : Py PanelSizeLocator :=
  size <- panel_size rows columns figwidth figheight panelratio hsep vsep
            padleft padright padtop padbottom ;;
  let '(panelwidth, panelheight) := size in
  PanelSizeLocator_init rows columns panelwidth panelheight hsep vsep
    padleft padright padtop padbottom units.

(** [constructed L]: some call of one of the two constructors returned [L]. *)
Inductive constructed (L : PanelSizeLocator) : Prop :=
| by_panel_size (rows columns : Z) (panelwidth panelheight : float)
    (hsep vsep : sep) (padleft padright padtop padbottom : float)
    (units : string) :
    outcome (PanelSizeLocator_init rows columns panelwidth panelheight
               hsep vsep padleft padright padtop padbottom units) = Ok L ->
    constructed L
| by_figure_size (rows columns : Z)
    (figwidth figheight panelratio : option float)
    (hsep vsep : sep) (padleft padright padtop padbottom : float)
    (units : string) :
    outcome (FigureSizeLocator_init rows columns figwidth figheight panelratio
               hsep vsep padleft padright padtop padbottom units) = Ok L ->
    constructed L.

(** What [__init__] establishes about the attributes it sets. *)
Record well_formed (L : PanelSizeLocator) : Prop := {
  wf_hsep_len : len L.(hsep) = Z.max 0 (L.(columns) - 1);
  wf_vsep_len : len L.(vsep) = Z.max 0 (L.(rows) - 1);
  wf_figwidth_nonzero : (L.(figwidth) =? 0)%float = false;
  wf_figheight_nonzero : (L.(figheight) =? 0)%float = false;
  wf_panelwidth_fig : L.(panelwidth_fig) = (L.(panelwidth) / L.(figwidth))%float;
  wf_panelheight_fig :
    L.(panelheight_fig) = (L.(panelheight) / L.(figheight))%float
}.

End Double.

(** The running example on doubles: 2 rows, 3 columns, panels of 10.0 by
    20.0, separations 1.0 and 2.0, padding 5.0 on every side. *)
Definition double_example_locator : Double.PanelSizeLocator :=
  Double.mkPanelSizeLocator 2 3 10 20 [1%float; 1%float] [2%float] 5 5 5 5
    "mm" 42 52 (10 / 42) (20 / 52).

(** * Properties *)

(** ** The monad *)

Lemma bind_ret_l {A B} (a : A) (k : A -> Py B) : bind (ret a) k = k a.
Proof. unfold bind, ret. destruct (k a) as [w r]. reflexivity. Qed.

Lemma bind_Ok_inv {A B} (m : Py A) (k : A -> Py B) (w : list string) (b : B) :
  bind m k = (w, Ok b) ->
  exists w1 a w2, m = (w1, Ok a) /\ k a = (w2, Ok b) /\ w = (w1 ++ w2)%list.
Proof.
  destruct m as [w1 [a | e]]; simpl; [| discriminate].
  destruct (k a) as [w2 r] eqn:Hk. intros H. inversion H; subst.
  exists w1, a, w2. auto.
Qed.

Lemma warnings_bind_nil {A B} (m : Py A) (k : A -> Py B) :
  warnings m = [] -> (forall a, warnings (k a) = []) -> warnings (bind m k) = [].
Proof.
  destruct m as [w [a | e]]; simpl; intros -> Hk; [| reflexivity].
  specialize (Hk a). destruct (k a) as [w' r]. exact Hk.
Qed.

Lemma outcome_bind_Ok_inv {A B} (m : Py A) (k : A -> Py B) (b : B) :
  outcome (bind m k) = Ok b ->
  exists a, outcome m = Ok a /\ outcome (k a) = Ok b.
Proof.
  destruct m as [w1 [a | e]]; simpl; [| discriminate].
  destruct (k a) as [w2 r] eqn:Hk. simpl. intros ->.
  exists a. rewrite Hk. auto.
Qed.

(** ** The built-ins *)

Lemma truediv_nonzero (a b : Q) : ~ (b == 0)%Q -> truediv a b = ret (a / b)%Q.
Proof.
  intros Hb. unfold truediv.
  destruct (Qeq_bool b 0) eqn:E; [| reflexivity].
  apply Qeq_bool_eq in E. contradiction.
Qed.

Lemma truediv_Ok_inv (a b q : Q) :
  outcome (truediv a b) = Ok q -> ~ (b == 0)%Q /\ q = (a / b)%Q.
Proof.
  unfold truediv. destruct (Qeq_bool b 0) eqn:E; simpl; [discriminate |].
  intros H. inversion H. split; [| reflexivity].
  intros Hb. apply Qeq_eq_bool in Hb. congruence.
Qed.

Lemma list_mul_singleton {A} (v : A) (n : Z) :
  list_mul [v] n = List.repeat v (Z.to_nat n).
Proof.
  unfold list_mul. induction (Z.to_nat n) as [| k IH]; simpl; [reflexivity |].
  now rewrite IH.
Qed.

Lemma len_list_mul_singleton {A} (v : A) (n : Z) :
  len (list_mul [v] n) = Z.max 0 n.
Proof.
  rewrite list_mul_singleton. unfold len. rewrite List.repeat_length. lia.
Qed.

Lemma slice_to_nonneg {A} (l : list A) (n : Z) :
  0 <= n -> slice_to l n = firstn (Z.to_nat n) l.
Proof.
  intros Hn. unfold slice_to.
  destruct (n <? 0) eqn:E; [apply Z.ltb_lt in E; lia | reflexivity].
Qed.

Lemma sum_from (l : list Q) (a : Q) :
  (fold_left Qplus l a == a + sum l)%Q.
Proof.
  unfold sum. revert a.
  induction l as [| x l IH]; intros a; simpl.
  - ring.
  - rewrite (IH (a + x)%Q), (IH (0 + x)%Q). ring.
Qed.

Lemma sum_nil : sum [] = 0%Q.
Proof. reflexivity. Qed.

Lemma sum_cons (x : Q) (l : list Q) : (sum (x :: l) == x + sum l)%Q.
Proof. unfold sum at 1. simpl. rewrite sum_from. ring. Qed.

Lemma sum_app (l1 l2 : list Q) : (sum (l1 ++ l2) == sum l1 + sum l2)%Q.
Proof.
  induction l1 as [| x l1 IH]; simpl.
  - rewrite sum_nil. ring.
  - rewrite !sum_cons, IH. ring.
Qed.

Lemma sum_nonneg (l : list Q) : Forall (fun v => 0 <= v)%Q l -> (0 <= sum l)%Q.
Proof.
  induction 1 as [| x l Hx Hl IH].
  - rewrite sum_nil. lra.
  - rewrite sum_cons. lra.
Qed.

Lemma sum_split (l : list Q) (n : nat) :
  (sum l == sum (firstn n l) + sum (skipn n l))%Q.
Proof. rewrite <- sum_app, firstn_skipn. reflexivity. Qed.

Lemma sum_firstn_le (l : list Q) (n : nat) :
  Forall (fun v => 0 <= v)%Q l -> (sum (firstn n l) <= sum l)%Q.
Proof.
  intros Hl. rewrite (sum_split l n).
  assert (0 <= sum (skipn n l))%Q.
  { apply sum_nonneg. rewrite <- (firstn_skipn n l) in Hl.
    apply Forall_app in Hl. tauto. }
  lra.
Qed.

Lemma sum_firstn_nonneg (l : list Q) (n : nat) :
  Forall (fun v => 0 <= v)%Q l -> (0 <= sum (firstn n l))%Q.
Proof.
  intros Hl. apply sum_nonneg. rewrite <- (firstn_skipn n l) in Hl.
  apply Forall_app in Hl. tauto.
Qed.

(** ** Construction *)

Lemma sep_sequence_warnings (s : sep) (n : Z) (msg : string) :
  warnings (sep_sequence s n msg) = [].
Proof. destruct s; simpl; [reflexivity |]. now destruct (negb _). Qed.

Lemma sep_sequence_Ok_inv (s : sep) (n : Z) (msg : string) (l : list Q) :
  outcome (sep_sequence s n msg) = Ok l ->
  len l = Z.max 0 n /\
  match s with
  | Scalar v => l = List.repeat v (Z.to_nat n)
  | Sequence vs => l = vs /\ len vs = n
  end.
Proof.
  destruct s as [v | vs]; simpl.
  - intros H. inversion H; subst. split.
    + apply len_list_mul_singleton.
    + apply list_mul_singleton.
  - destruct (len vs =? n) eqn:E; simpl; [| discriminate].
    intros H. inversion H; subst. apply Z.eqb_eq in E.
    unfold len in *. repeat split; lia.
Qed.

Lemma sep_sequence_outcome (s : sep) (n : Z) (msg : string) :
  sep_sequence s n msg = ([], outcome (sep_sequence s n msg)).
Proof. destruct s; simpl; [reflexivity |]. now destruct (negb _). Qed.

Lemma truediv_warnings (a b : Q) : warnings (truediv a b) = [].
Proof. unfold truediv. now destruct (Qeq_bool b 0). Qed.

Lemma PanelSizeLocator_init_Ok_inv
    (r c : Z) (pw ph : Q) (hs vs : sep) (pl pr pt pb : Q) (u : string)
    (L : PanelSizeLocator) :
  outcome (PanelSizeLocator_init r c pw ph hs vs pl pr pt pb u) = Ok L ->
  exists hs' vs',
    outcome (sep_sequence hs (c - 1) Msg.hsep_length) = Ok hs' /\
    outcome (sep_sequence vs (r - 1) Msg.vsep_length) = Ok vs' /\
    let fw := (pl + inject_Z c * pw + sum hs' + pr)%Q in
    let fh := (pt + inject_Z r * ph + sum vs' + pb)%Q in
    ~ (fw == 0)%Q /\ ~ (fh == 0)%Q /\
    L = mkPanelSizeLocator r c pw ph hs' vs' pl pr pt pb u fw fh
          (pw / fw)%Q (ph / fh)%Q.
Proof.
  unfold PanelSizeLocator_init. intros H.
  apply outcome_bind_Ok_inv in H as (hs' & Hhs & H).
  apply outcome_bind_Ok_inv in H as (vs' & Hvs & H).
  apply outcome_bind_Ok_inv in H as (pwf & Hpwf & H).
  apply outcome_bind_Ok_inv in H as (phf & Hphf & H).
  apply truediv_Ok_inv in Hpwf as [Hfw ->].
  apply truediv_Ok_inv in Hphf as [Hfh ->].
  exists hs', vs'. simpl in H. inversion H; subst. auto.
Qed.

Lemma PanelSizeLocator_init_warnings
    (r c : Z) (pw ph : Q) (hs vs : sep) (pl pr pt pb : Q) (u : string) :
  warnings (PanelSizeLocator_init r c pw ph hs vs pl pr pt pb u) = [].
Proof.
  unfold PanelSizeLocator_init.
  repeat (apply warnings_bind_nil;
          [first [apply sep_sequence_warnings | apply truediv_warnings] | intros ?]).
  reflexivity.
Qed.

Lemma PanelSizeLocator_init_well_formed
    (r c : Z) (pw ph : Q) (hs vs : sep) (pl pr pt pb : Q) (u : string)
    (L : PanelSizeLocator) :
  outcome (PanelSizeLocator_init r c pw ph hs vs pl pr pt pb u) = Ok L ->
  well_formed L.
Proof.
  intros H.
  apply PanelSizeLocator_init_Ok_inv in H
    as (hs' & vs' & Hhs & Hvs & Hfw & Hfh & ->).
  apply sep_sequence_Ok_inv in Hhs as [Hhs _].
  apply sep_sequence_Ok_inv in Hvs as [Hvs _].
  constructor; simpl; auto.
Qed.

Lemma FigureSizeLocator_init_delegates
    (r c : Z) (fw fh ratio : option Q) (hs vs : sep) (pl pr pt pb : Q)
    (u : string) (L : PanelSizeLocator) :
  outcome (FigureSizeLocator_init r c fw fh ratio hs vs pl pr pt pb u) = Ok L ->
  exists pw ph,
    outcome (panel_size r c fw fh ratio hs vs pl pr pt pb) = Ok (pw, ph) /\
    outcome (PanelSizeLocator_init r c pw ph hs vs pl pr pt pb u) = Ok L.
Proof.
  unfold FigureSizeLocator_init. intros H.
  apply outcome_bind_Ok_inv in H as ([pw ph] & Hsize & H).
  exists pw, ph. auto.
Qed.

Lemma constructed_well_formed (L : PanelSizeLocator) :
  constructed L -> well_formed L.
Proof.
  intros [r c pw ph hs vs pl pr pt pb u H | r c fw fh ratio hs vs pl pr pt pb u H].
  - eapply PanelSizeLocator_init_well_formed; eassumption.
  - apply FigureSizeLocator_init_delegates in H as (pw & ph & _ & H).
    eapply PanelSizeLocator_init_well_formed; eassumption.
Qed.

Lemma example_locator_init :
  PanelSizeLocator_init 2 3 10 20 (Scalar 1) (Scalar 2) 5 5 5 5 "mm"
  = ([], Ok example_locator).
Proof. vm_compute. reflexivity. Qed.

Lemma example_locator_constructed : constructed example_locator.
Proof.
  apply (by_panel_size _ 2 3 10 20 (Scalar 1) (Scalar 2) 5 5 5 5 "mm").
  rewrite example_locator_init. reflexivity.
Defined.

(** ** panel_position *)

(** On a constructed locator neither division of [panel_position] can fail,
    whatever the indices are. *)
Lemma panel_position_total (L : PanelSizeLocator) (row column : Z) :
  well_formed L ->
  panel_position L row column =
    ([], Ok (((L.(padleft) + L.(panelwidth) * inject_Z column
               + sum (slice_to L.(hsep) column)) / L.(figwidth))%Q,
             ((L.(figheight) - L.(padtop)
               - L.(panelheight) * inject_Z (row + 1)
               - sum (slice_to L.(vsep) row)) / L.(figheight))%Q,
             (L.(panelwidth) / L.(figwidth))%Q,
             (L.(panelheight) / L.(figheight))%Q)).
Proof.
  intros W. unfold panel_position.
  rewrite (truediv_nonzero _ _ (wf_figwidth_nonzero L W)), bind_ret_l.
  rewrite (truediv_nonzero _ _ (wf_figheight_nonzero L W)), bind_ret_l.
  rewrite (wf_panelwidth_fig L W), (wf_panelheight_fig L W). reflexivity.
Qed.

Lemma firstn_in_range {A} (l : list A) (i n : Z) :
  len l = Z.max 0 (n - 1) -> 0 <= i < n ->
  List.length (firstn (Z.to_nat i) l) = Z.to_nat i.
Proof.
  unfold len. intros Hl Hi. rewrite length_firstn. lia.
Qed.

(** C1. On every constructed locator and every in-range pair (row, column),
    [panel_position] returns the rectangle whose [x] is
    (padleft + panelwidth*column + sum of the first [column] entries of hsep)
    / figwidth and whose [y] is (figheight - padtop - panelheight*(row+1)
    - sum of the first [row] entries of vsep) / figheight; the prefixes have
    exactly [column] and [row] entries, so that for row 0 nothing but padtop
    and one panel height is taken off the figure height. *)
Theorem panel_position_formula (L : PanelSizeLocator) (row column : Z) :
  constructed L ->
  0 <= row < L.(rows) ->
  0 <= column < L.(columns) ->
  exists x y w h : Q,
    panel_position L row column = ([], Ok (x, y, w, h)) /\
    x = ((L.(padleft) + L.(panelwidth) * inject_Z column
          + sum (firstn (Z.to_nat column) L.(hsep))) / L.(figwidth))%Q /\
    y = ((L.(figheight) - L.(padtop) - L.(panelheight) * inject_Z (row + 1)
          - sum (firstn (Z.to_nat row) L.(vsep))) / L.(figheight))%Q /\
    w = L.(panelwidth_fig) /\
    h = L.(panelheight_fig) /\
    List.length (firstn (Z.to_nat column) L.(hsep)) = Z.to_nat column /\
    List.length (firstn (Z.to_nat row) L.(vsep)) = Z.to_nat row.
Proof.
  intros HL Hrow Hcol.
  pose proof (constructed_well_formed L HL) as W.
  do 4 eexists. split; [apply (panel_position_total L row column W) |].
  rewrite !slice_to_nonneg by lia.
  rewrite (wf_panelwidth_fig L W), (wf_panelheight_fig L W).
  repeat (split; [reflexivity |]).
  split; [apply (firstn_in_range _ _ L.(columns)); [apply W | lia] |].
  apply (firstn_in_range _ _ L.(rows)); [apply W | lia].
Qed.

Lemma panel_position_formula_witness :
  (0 <= 1 < example_locator.(rows)) /\
  (0 <= 2 < example_locator.(columns)) /\
  exists x y w h : Q,
    panel_position example_locator 1 2 = ([], Ok (x, y, w, h)) /\
    (x == 27 # 42)%Q /\ (y == 5 # 52)%Q.
Proof.
  assert (Hrow : 0 <= 1 < example_locator.(rows)) by (simpl; lia).
  assert (Hcol : 0 <= 2 < example_locator.(columns)) by (simpl; lia).
  split; [exact Hrow |]. split; [exact Hcol |].
  destruct (panel_position_formula example_locator 1 2
              example_locator_constructed Hrow Hcol)
    as (x & y & w & h & Hpos & Hx & Hy & _).
  exists x, y, w, h. split; [exact Hpos |].
  rewrite Hx, Hy. split; vm_compute; reflexivity.
Defined.

(** ** Figure size *)

(** C2. The figure size computed at construction is
    figwidth = padleft + columns*panelwidth + sum(hsep) + padright and
    figheight = padtop + rows*panelheight + sum(vsep) + padbottom, on every
    constructed locator; for [PanelSizeLocator] the attributes are the
    constructor's arguments, a scalar separation standing for its broadcast
    list; and rows=2, columns=3, panelwidth=10, panelheight=20, hsep=1,
    vsep=2, all paddings 5 give figwidth 42 and figheight 52. *)
Theorem figure_size_additive :
  (forall L : PanelSizeLocator,
     constructed L ->
     L.(figwidth) = (L.(padleft) + inject_Z L.(columns) * L.(panelwidth)
                     + sum L.(hsep) + L.(padright))%Q /\
     L.(figheight) = (L.(padtop) + inject_Z L.(rows) * L.(panelheight)
                      + sum L.(vsep) + L.(padbottom))%Q) /\
  (forall (r c : Z) (pw ph : Q) (hs vs : sep) (pl pr pt pb : Q) (u : string)
          (L : PanelSizeLocator),
     outcome (PanelSizeLocator_init r c pw ph hs vs pl pr pt pb u) = Ok L ->
     L.(rows) = r /\ L.(columns) = c /\
     L.(panelwidth) = pw /\ L.(panelheight) = ph /\
     L.(padleft) = pl /\ L.(padright) = pr /\
     L.(padtop) = pt /\ L.(padbottom) = pb /\
     L.(hsep) = match hs with
                | Scalar v => List.repeat v (Z.to_nat (c - 1))
                | Sequence l => l
                end /\
     L.(vsep) = match vs with
                | Scalar v => List.repeat v (Z.to_nat (r - 1))
                | Sequence l => l
                end) /\
  (forall u : string,
     exists L : PanelSizeLocator,
       PanelSizeLocator_init 2 3 10 20 (Scalar 1) (Scalar 2) 5 5 5 5 u
       = ([], Ok L) /\
       (L.(figwidth) == 42)%Q /\ (L.(figheight) == 52)%Q).
Proof.
  split; [| split].
  - intros L HL. pose proof (constructed_well_formed L HL) as W.
    split; apply W.
  - intros r c pw ph hs vs pl pr pt pb u L H.
    apply PanelSizeLocator_init_Ok_inv in H
      as (hs' & vs' & Hhs & Hvs & _ & _ & ->).
    apply sep_sequence_Ok_inv in Hhs as [_ Hhs].
    apply sep_sequence_Ok_inv in Hvs as [_ Hvs].
    simpl. repeat (split; [reflexivity |]).
    split; [destruct hs | destruct vs]; tauto.
  - intros u. eexists. split; [vm_compute; reflexivity |].
    split; vm_compute; reflexivity.
Qed.

Lemma figure_size_additive_witness :
  example_locator.(figwidth) = (5 + inject_Z 3 * 10 + sum [1; 1] + 5)%Q /\
  example_locator.(figheight) = (5 + inject_Z 2 * 20 + sum [2] + 5)%Q.
Proof.
  exact (proj1 figure_size_additive example_locator
           example_locator_constructed).
Defined.

(** ** Rectangles inside the figure *)

Lemma Qdiv_unit_interval (n d : Q) :
  (0 < d)%Q -> (0 <= n)%Q -> (n <= d)%Q -> (0 <= n / d /\ n / d <= 1)%Q.
Proof.
  intros Hd Hn Hnd. split.
  - apply Qle_shift_div_l; [exact Hd | lra].
  - apply Qle_shift_div_r; [exact Hd | lra].
Qed.

Lemma inject_Z_nonneg (n : Z) : 0 <= n -> (0 <= inject_Z n)%Q.
Proof. intros H. change 0%Q with (inject_Z 0). rewrite <- Zle_Qle. exact H. Qed.

Lemma inject_Z_succ_le (i n : Z) : i < n -> (inject_Z i + 1 <= inject_Z n)%Q.
Proof.
  intros H. change 1%Q with (inject_Z 1). rewrite <- inject_Z_plus.
  rewrite <- Zle_Qle. lia.
Qed.

(** C7, in exact arithmetic.  The rational model is what
    [PanelSizeLocator] computes when its lengths are exact rationals
    ([fractions.Fraction]): no operation rounds.  There, with positive panel
    dimensions and non-negative separations and paddings, every rectangle
    that [panel_position] returns for in-range indices lies in the unit
    square, and in row 0 (so also at row 0, column 0) its top edge
    y + height is 1 - padtop/figheight. *)
Theorem panel_position_in_unit_square
    (r c : Z) (width height : Q) (hs vs : sep) (pl pr pt pb : Q) (u : string)
    (L : PanelSizeLocator) (row column : Z) :
  outcome (PanelSizeLocator_init r c width height hs vs pl pr pt pb u) = Ok L ->
  (0 < L.(panelwidth))%Q -> (0 < L.(panelheight))%Q ->
  Forall (fun v => 0 <= v)%Q L.(hsep) -> Forall (fun v => 0 <= v)%Q L.(vsep) ->
  (0 <= L.(padleft))%Q -> (0 <= L.(padright))%Q ->
  (0 <= L.(padtop))%Q -> (0 <= L.(padbottom))%Q ->
  0 <= row < L.(rows) ->
  0 <= column < L.(columns) ->
  exists x y w h : Q,
    panel_position L row column = ([], Ok (x, y, w, h)) /\
    (0 <= x)%Q /\ (0 <= y)%Q /\ (0 <= w)%Q /\ (0 <= h)%Q /\
    (x + w <= 1)%Q /\ (y + h <= 1)%Q /\
    (row = 0 -> (y + h == 1 - L.(padtop) / L.(figheight))%Q).
Proof.
  intros HL Hpw Hph Hhs Hvs Hpl Hpr Hpt Hpb Hrow Hcol.
  pose proof (PanelSizeLocator_init_well_formed _ _ _ _ _ _ _ _ _ _ _ _ HL) as W.
  do 4 eexists. split; [apply (panel_position_total L row column W) |].
  rewrite !slice_to_nonneg by lia.
  pose proof (wf_figwidth L W) as Efw. pose proof (wf_figheight L W) as Efh.
  pose proof (sum_firstn_le _ (Z.to_nat column) Hhs) as Hsc.
  pose proof (sum_firstn_nonneg _ (Z.to_nat column) Hhs) as Hsc0.
  pose proof (sum_firstn_le _ (Z.to_nat row) Hvs) as Hsr.
  pose proof (sum_firstn_nonneg _ (Z.to_nat row) Hvs) as Hsr0.
  pose proof (inject_Z_nonneg column (proj1 Hcol)) as Hc0.
  pose proof (inject_Z_succ_le column _ (proj2 Hcol)) as Hc1.
  pose proof (inject_Z_nonneg row (proj1 Hrow)) as Hr0.
  pose proof (inject_Z_succ_le row _ (proj2 Hrow)) as Hr1.
  rewrite inject_Z_plus. change (inject_Z 1) with 1%Q.
  set (sc := sum (firstn (Z.to_nat column) L.(hsep))) in *.
  set (sr := sum (firstn (Z.to_nat row) L.(vsep))) in *.
  set (qc := inject_Z column) in *. set (qr := inject_Z row) in *.
  set (nc := inject_Z L.(columns)) in *. set (nr := inject_Z L.(rows)) in *.
  set (pw := L.(panelwidth)) in *. set (ph := L.(panelheight)) in *.
  assert (Hwc : (pw * qc + pw <= nc * pw)%Q) by nra.
  assert (Hwr : (ph * qr + ph <= nr * ph)%Q) by nra.
  assert (Hqc : (0 <= pw * qc)%Q) by nra.
  assert (Hqr : (0 <= ph * qr)%Q) by nra.
  assert (Hfw : (0 < L.(figwidth))%Q) by (rewrite Efw; lra).
  assert (Hfh : (0 < L.(figheight))%Q) by (rewrite Efh; lra).
  assert (Nfw : ~ (L.(figwidth) == 0)%Q) by lra.
  assert (Nfh : ~ (L.(figheight) == 0)%Q) by lra.
  assert (Ex : ((L.(padleft) + pw * qc + sc) / L.(figwidth) + pw / L.(figwidth)
                == (L.(padleft) + pw * qc + sc + pw) / L.(figwidth))%Q)
    by (field; exact Nfw).
  assert (Ey : ((L.(figheight) - L.(padtop) - ph * (qr + 1) - sr) / L.(figheight)
                + ph / L.(figheight)
                == (L.(figheight) - L.(padtop) - ph * qr - sr) / L.(figheight))%Q)
    by (field; exact Nfh).
  repeat split.
  - apply Qdiv_unit_interval; [exact Hfw | lra | rewrite Efw; lra].
  - apply Qdiv_unit_interval; [exact Hfh | rewrite Efh; lra | lra].
  - apply Qdiv_unit_interval; [exact Hfw | lra | rewrite Efw; lra].
  - apply Qdiv_unit_interval; [exact Hfh | lra | rewrite Efh; lra].
  - rewrite Ex. apply Qdiv_unit_interval; [exact Hfw | lra | rewrite Efw; lra].
  - rewrite Ey. apply Qdiv_unit_interval; [exact Hfh | rewrite Efh; lra | lra].
  - intros ->. subst sr qr. simpl (firstn _ _). rewrite sum_nil.
    change (inject_Z 0) with 0%Q. field. exact Nfh.
Qed.

Lemma panel_position_in_unit_square_witness :
  exists x y w h : Q,
    panel_position example_locator 0 0 = ([], Ok (x, y, w, h)) /\
    (0 <= x)%Q /\ (0 <= y)%Q /\ (0 <= w)%Q /\ (0 <= h)%Q /\
    (x + w <= 1)%Q /\ (y + h <= 1)%Q /\
    (0 = 0 -> (y + h == 1 - 5 / 52)%Q).
Proof.
  apply (panel_position_in_unit_square 2 3 10 20 (Scalar 1) (Scalar 2)
           5 5 5 5 "mm" example_locator 0 0);
    [rewrite example_locator_init; reflexivity | ..]; simpl;
    try lra; try lia; repeat constructor; lra.
Defined.

(** ** The iterator *)

Lemma In_range (n i : Z) : In i (range n) <-> 0 <= i < n.
Proof.
  unfold range. rewrite in_map_iff. split.
  - intros (k & <- & Hk). apply in_seq in Hk. lia.
  - intros Hi. exists (Z.to_nat i). split; [lia |]. apply in_seq. lia.
Qed.

Lemma StronglySorted_app {A} (R : A -> A -> Prop) (l1 l2 : list A) :
  StronglySorted R l1 -> StronglySorted R l2 ->
  (forall x y, In x l1 -> In y l2 -> R x y) ->
  StronglySorted R (l1 ++ l2).
Proof.
  induction 1 as [| a l1 Hl1 IH Ha]; intros H2 Hcross; simpl; [exact H2 |].
  constructor.
  - apply IH; [exact H2 |]. intros x y Hx Hy. apply Hcross; simpl; auto.
  - apply Forall_app. split; [exact Ha |].
    apply Forall_forall. intros y Hy. apply Hcross; simpl; auto.
Qed.

Lemma StronglySorted_map {A B} (R : A -> A -> Prop) (S : B -> B -> Prop)
    (f : A -> B) (l : list A) :
  (forall x y, R x y -> S (f x) (f y)) ->
  StronglySorted R l -> StronglySorted S (map f l).
Proof.
  intros Hf. induction 1 as [| a l Hl IH Ha]; simpl; constructor; [exact IH |].
  apply Forall_map. revert Ha. apply Forall_impl. intros y. apply Hf.
Qed.

Lemma StronglySorted_NoDup {A} (R : A -> A -> Prop) (l : list A) :
  (forall x, ~ R x x) -> StronglySorted R l -> NoDup l.
Proof.
  intros Hirr. induction 1 as [| a l Hl IH Ha]; constructor; [| exact IH].
  intros Hin. rewrite Forall_forall in Ha. exact (Hirr a (Ha a Hin)).
Qed.

Lemma range_sorted (n : Z) : StronglySorted Z.lt (range n).
Proof.
  unfold range. generalize 0%nat as s.
  induction (Z.to_nat n) as [| k IH]; intros s; simpl; constructor.
  - apply IH.
  - apply Forall_forall. intros y Hy. apply in_map_iff in Hy as (j & <- & Hj).
    apply in_seq in Hj. lia.
Qed.

Lemma In_product {A B} (g0 : list A) (g1 : list B) (a : A) (b : B) :
  In (a, b) (product g0 g1) <-> In a g0 /\ In b g1.
Proof.
  unfold product. rewrite in_flat_map. split.
  - intros (a' & Ha & Hb). apply in_map_iff in Hb as (b' & E & Hb).
    inversion E; subst. auto.
  - intros [Ha Hb]. exists a. split; [exact Ha |]. now apply in_map.
Qed.

(** [itertools.product] of two ascending iterables ascends in the
    lexicographic order, first component first. *)
Lemma product_sorted (g0 g1 : list Z) :
  StronglySorted Z.lt g0 -> StronglySorted Z.lt g1 ->
  StronglySorted row_major_lt (product g0 g1).
Proof.
  intros H0 H1. unfold product.
  induction H0 as [| a g0 Hg0 IH Ha]; simpl; [constructor |].
  apply StronglySorted_app.
  - apply (StronglySorted_map Z.lt); [| exact H1].
    intros x y Hxy. right. simpl. auto.
  - exact IH.
  - intros x y Hx Hy. apply in_map_iff in Hx as (b & <- & _).
    destruct y as [a' b']. apply (In_product g0 g1) in Hy as [Ha' _].
    rewrite Forall_forall in Ha. left. simpl. auto.
Qed.

Lemma row_major_lt_irrefl (p : Z * Z) : ~ row_major_lt p p.
Proof. unfold row_major_lt. lia. Qed.

Lemma column_major_lt_irrefl (p : Z * Z) : ~ column_major_lt p p.
Proof. unfold column_major_lt. lia. Qed.

(** What the generator yields for each order, by the index pairs
    [(x[i0], x[i1])] taken from the product. *)
Lemma panel_position_iterator_row (L : PanelSizeLocator) :
  panel_position_iterator L "row" =
    ([], Ok (positions_of L (product (range L.(rows)) (range L.(columns))))).
Proof.
  unfold panel_position_iterator, positions_of. simpl. reflexivity.
Qed.

Lemma panel_position_iterator_column (L : PanelSizeLocator) :
  panel_position_iterator L "column" =
    ([], Ok (positions_of L
               (map (fun x => (snd x, fst x))
                    (product (range L.(columns)) (range L.(rows)))))).
Proof.
  unfold panel_position_iterator, positions_of. simpl.
  rewrite map_map. reflexivity.
Qed.

Lemma row_major_covers (rows columns : Z) :
  covers_once rows columns (product (range rows) (range columns)) /\
  StronglySorted row_major_lt (product (range rows) (range columns)).
Proof.
  assert (S : StronglySorted row_major_lt
                (product (range rows) (range columns)))
    by (apply product_sorted; apply range_sorted).
  split; [split |]; [| | exact S].
  - exact (StronglySorted_NoDup _ _ row_major_lt_irrefl S).
  - intros r c. rewrite In_product, !In_range. reflexivity.
Qed.

Lemma column_major_covers (rows columns : Z) :
  let idx := map (fun x : Z * Z => (snd x, fst x))
                 (product (range columns) (range rows)) in
  covers_once rows columns idx /\ StronglySorted column_major_lt idx.
Proof.
  intros idx.
  assert (S : StronglySorted column_major_lt idx).
  { apply (StronglySorted_map row_major_lt).
    - intros x y Hxy. exact Hxy.
    - apply product_sorted; apply range_sorted. }
  split; [split |]; [| | exact S].
  - exact (StronglySorted_NoDup _ _ column_major_lt_irrefl S).
  - intros r c. unfold idx. rewrite in_map_iff. split.
    + intros ([c' r'] & E & Hin). simpl in E. inversion E; subst.
      apply In_product in Hin. rewrite !In_range in Hin. tauto.
    + intros [Hr Hc]. exists (c, r). split; [reflexivity |].
      apply In_product. rewrite !In_range. tauto.
Qed.

(** C5. On every locator the iterator covers every (row, column) pair of
    the grid exactly once; order "row" yields the positions row-major and
    order "column" column-major; on a constructed locator every item for a
    pair of the grid is a rectangle; and on a 2x3 grid the two orders yield
    the positions of (0,0),(0,1),(0,2),(1,0),(1,1),(1,2) and of
    (0,0),(1,0),(0,1),(1,1),(0,2),(1,2). *)
Theorem panel_position_iterator_coverage (L : PanelSizeLocator) :
  (exists idx : list (Z * Z),
     panel_position_iterator L "row" = ([], Ok (positions_of L idx)) /\
     covers_once L.(rows) L.(columns) idx /\
     StronglySorted row_major_lt idx) /\
  (exists idx : list (Z * Z),
     panel_position_iterator L "column" = ([], Ok (positions_of L idx)) /\
     covers_once L.(rows) L.(columns) idx /\
     StronglySorted column_major_lt idx) /\
  (constructed L ->
   forall idx : list (Z * Z),
     covers_once L.(rows) L.(columns) idx ->
     Forall (fun item => exists r : rect, item = ([], Ok r))
            (positions_of L idx)) /\
  (L.(rows) = 2 -> L.(columns) = 3 ->
   panel_position_iterator L "row" =
     ([], Ok (positions_of L [(0, 0); (0, 1); (0, 2); (1, 0); (1, 1); (1, 2)]))
   /\
   panel_position_iterator L "column" =
     ([], Ok (positions_of L [(0, 0); (1, 0); (0, 1); (1, 1); (0, 2); (1, 2)]))).
Proof.
  split; [| split; [| split]].
  - eexists. split; [apply panel_position_iterator_row |].
    apply row_major_covers.
  - eexists. split; [apply panel_position_iterator_column |].
    apply column_major_covers.
  - intros HL idx _. pose proof (constructed_well_formed L HL) as W.
    unfold positions_of. apply Forall_map, Forall_forall. intros [r c] _.
    eexists. apply (panel_position_total L r c W).
  - intros Hrows Hcols.
    rewrite panel_position_iterator_row, panel_position_iterator_column.
    rewrite Hrows, Hcols. split; reflexivity.
Qed.

Lemma panel_position_iterator_coverage_witness :
  panel_position_iterator example_locator "row" =
    ([], Ok (positions_of example_locator
               [(0, 0); (0, 1); (0, 2); (1, 0); (1, 1); (1, 2)])) /\
  panel_position_iterator example_locator "column" =
    ([], Ok (positions_of example_locator
               [(0, 0); (1, 0); (0, 1); (1, 1); (0, 2); (1, 2)])) /\
  Forall (fun item => exists r : rect, item = ([], Ok r))
         (positions_of example_locator
            (product (range example_locator.(rows))
                     (range example_locator.(columns)))).
Proof.
  pose proof (panel_position_iterator_coverage example_locator)
    as (_ & _ & Hitems & Hgrid).
  destruct (Hgrid eq_refl eq_refl) as [Hrow Hcol].
  split; [exact Hrow |]. split; [exact Hcol |].
  exact (Hitems example_locator_constructed _
           (proj1 (row_major_covers _ _))).
Defined.

(** ** Validation of the separations *)

Lemma sep_sequence_wrong_length (l : list Q) (n : Z) (msg : string) :
  len l <> n -> sep_sequence (Sequence l) n msg = raise (ValueError msg).
Proof.
  intros H. simpl. apply Z.eqb_neq in H. rewrite H. reflexivity.
Qed.

Lemma sep_sequence_result (s : sep) (n : Z) (msg : string) :
  (exists l, sep_sequence s n msg = ret l) \/
  sep_sequence s n msg = raise (ValueError msg).
Proof.
  destruct s as [v | l]; simpl; [eauto |].
  destruct (len l =? n); simpl; eauto.
Qed.

Lemma PanelSizeLocator_init_bad_hsep
    (r c : Z) (pw ph : Q) (l : list Q) (vs : sep) (pl pr pt pb : Q) (u : string) :
  len l <> c - 1 ->
  PanelSizeLocator_init r c pw ph (Sequence l) vs pl pr pt pb u
  = ([], Raise (ValueError Msg.hsep_length)).
Proof.
  intros H. unfold PanelSizeLocator_init.
  rewrite (sep_sequence_wrong_length l _ _ H). reflexivity.
Qed.

Lemma PanelSizeLocator_init_bad_vsep
    (r c : Z) (pw ph : Q) (hs : sep) (l : list Q) (pl pr pt pb : Q) (u : string) :
  len l <> r - 1 ->
  PanelSizeLocator_init r c pw ph hs (Sequence l) pl pr pt pb u
  = ([], Raise (ValueError Msg.hsep_length)) \/
  PanelSizeLocator_init r c pw ph hs (Sequence l) pl pr pt pb u
  = ([], Raise (ValueError Msg.vsep_length)).
Proof.
  intros H. unfold PanelSizeLocator_init.
  destruct (sep_sequence_result hs (c - 1) Msg.hsep_length) as [[hs' E] | E];
    rewrite E.
  - right. rewrite bind_ret_l, (sep_sequence_wrong_length l _ _ H). reflexivity.
  - left. reflexivity.
Qed.

Lemma panel_size_bad_hsep
    (r c : Z) (fw fh ratio : option Q) (l : list Q) (vs : sep) (pl pr pt pb : Q) :
  len l <> c - 1 ->
  panel_size r c fw fh ratio (Sequence l) vs pl pr pt pb
  = ([], Raise (ValueError Msg.no_dimension)) \/
  panel_size r c fw fh ratio (Sequence l) vs pl pr pt pb
  = ([], Raise (ValueError Msg.hsep_length)).
Proof.
  intros H. unfold panel_size.
  destruct fw, fh; try (left; reflexivity);
    right; rewrite (sep_sequence_wrong_length l _ _ H); reflexivity.
Qed.

Lemma panel_size_bad_vsep
    (r c : Z) (fw fh ratio : option Q) (hs : sep) (l : list Q) (pl pr pt pb : Q) :
  len l <> r - 1 ->
  exists msg,
    panel_size r c fw fh ratio hs (Sequence l) pl pr pt pb
    = ([], Raise (ValueError msg)).
Proof.
  intros H. unfold panel_size.
  destruct fw, fh; try (eexists; reflexivity);
    (destruct (sep_sequence_result hs (c - 1) Msg.hsep_length) as [[hs' E] | E];
     rewrite E;
     [ rewrite bind_ret_l, (sep_sequence_wrong_length l _ _ H)
     | ]; eexists; reflexivity).
Qed.

Lemma FigureSizeLocator_init_raises
    (r c : Z) (fw fh ratio : option Q) (hs vs : sep) (pl pr pt pb : Q)
    (u : string) (e : exn) :
  panel_size r c fw fh ratio hs vs pl pr pt pb = ([], Raise e) ->
  FigureSizeLocator_init r c fw fh ratio hs vs pl pr pt pb u = ([], Raise e).
Proof. intros H. unfold FigureSizeLocator_init. rewrite H. reflexivity. Qed.

Lemma scalar_broadcast (s : sep) (v : Q) (n : Z) (msg : string) (l : list Q) :
  s = Scalar v -> outcome (sep_sequence s n msg) = Ok l ->
  l = List.repeat v (Z.to_nat n) /\ (0 <= n -> len l = n).
Proof.
  intros -> H. apply sep_sequence_Ok_inv in H as [Hlen ->].
  split; [reflexivity |]. intros Hn. unfold len. rewrite List.repeat_length. lia.
Qed.

Lemma sep_sequence_ret (s : sep) (n : Z) (msg : string) (l : list Q) :
  outcome (sep_sequence s n msg) = Ok l -> sep_sequence s n msg = ret l.
Proof. intros H. rewrite sep_sequence_outcome, H. reflexivity. Qed.

Lemma PanelSizeLocator_init_returns
    (r c : Z) (pw ph : Q) (hs vs : sep) (pl pr pt pb : Q) (u : string)
    (hs' vs' : list Q) :
  outcome (sep_sequence hs (c - 1) Msg.hsep_length) = Ok hs' ->
  outcome (sep_sequence vs (r - 1) Msg.vsep_length) = Ok vs' ->
  ~ (pl + inject_Z c * pw + sum hs' + pr == 0)%Q ->
  ~ (pt + inject_Z r * ph + sum vs' + pb == 0)%Q ->
  PanelSizeLocator_init r c pw ph hs vs pl pr pt pb u
  = ([], Ok (mkPanelSizeLocator r c pw ph hs' vs' pl pr pt pb u
               (pl + inject_Z c * pw + sum hs' + pr)%Q
               (pt + inject_Z r * ph + sum vs' + pb)%Q
               (pw / (pl + inject_Z c * pw + sum hs' + pr))%Q
               (ph / (pt + inject_Z r * ph + sum vs' + pb))%Q)).
Proof.
  intros Hhs Hvs Nw Nh. unfold PanelSizeLocator_init.
  rewrite (sep_sequence_ret _ _ _ _ Hhs), bind_ret_l.
  rewrite (sep_sequence_ret _ _ _ _ Hvs), bind_ret_l.
  rewrite (truediv_nonzero _ _ Nw), bind_ret_l.
  rewrite (truediv_nonzero _ _ Nh), bind_ret_l. reflexivity.
Qed.

Ltac split_conditions :=
  repeat match goal with
         | |- context [if ?b then _ else _] => destruct b eqn:?
         end.

(** A [ValueError] of [PanelSizeLocator.__init__] always reports a sequence
    of the wrong length. *)
Lemma PanelSizeLocator_init_ValueError_inv
    (r c : Z) (pw ph : Q) (hs vs : sep) (pl pr pt pb : Q) (u : string)
    (msg : string) :
  outcome (PanelSizeLocator_init r c pw ph hs vs pl pr pt pb u)
  = Raise (ValueError msg) ->
  (msg = Msg.hsep_length /\ exists l, hs = Sequence l /\ len l <> c - 1) \/
  (msg = Msg.vsep_length /\ exists l, vs = Sequence l /\ len l <> r - 1).
Proof.
  unfold PanelSizeLocator_init, sep_sequence, truediv, bind, ret, raise.
  destruct hs as [v | l], vs as [v' | l']; split_conditions; simpl;
    intros H; try discriminate; inversion H; subst;
    repeat match goal with
           | E : negb (_ =? _) = true |- _ =>
               apply negb_true_iff, Z.eqb_neq in E
           end; eauto.
Qed.

(** The [ValueError]s of [panel_size] about a separation always report a
    sequence of the wrong length. *)
Lemma panel_size_ValueError_inv
    (r c : Z) (fw fh ratio : option Q) (hs vs : sep) (pl pr pt pb : Q) :
  (outcome (panel_size r c fw fh ratio hs vs pl pr pt pb)
   = Raise (ValueError Msg.hsep_length) ->
   exists l, hs = Sequence l /\ len l <> c - 1) /\
  (outcome (panel_size r c fw fh ratio hs vs pl pr pt pb)
   = Raise (ValueError Msg.vsep_length) ->
   exists l, vs = Sequence l /\ len l <> r - 1).
Proof.
  unfold panel_size, sep_sequence, truediv, bind, ret, raise, warn.
  split;
    (destruct fw, fh, ratio, hs as [v | l], vs as [v' | l'];
     split_conditions; simpl; intros H; try discriminate;
     try (exfalso; revert H; vm_compute; discriminate);
     repeat match goal with
            | E : negb (_ =? _) = true |- _ =>
                apply negb_true_iff, Z.eqb_neq in E
            end; eauto).
Qed.

(** C6. Both constructors fail with a [ValueError] when hsep is an explicit
    sequence whose length differs from columns-1, and when vsep is one whose
    length differs from rows-1; a scalar separation is broadcast to the list
    that repeats it columns-1 (rows-1) times, of exactly that length on a
    grid with at least one column (row); columns=4 with hsep=[1,2] fails;
    a scalar separation is never rejected by the length check of either
    constructor; and with two scalars [PanelSizeLocator] returns the locator
    that holds the two broadcast lists whenever the figure size it computes
    is not zero. *)
Theorem separation_length_validated :
  (forall (r c : Z) (pw ph : Q) (fw fh ratio : option Q) (l : list Q)
          (vs : sep) (pl pr pt pb : Q) (u : string),
     len l <> c - 1 ->
     raises_ValueError
       (PanelSizeLocator_init r c pw ph (Sequence l) vs pl pr pt pb u) /\
     raises_ValueError
       (FigureSizeLocator_init r c fw fh ratio (Sequence l) vs pl pr pt pb u))
  /\
  (forall (r c : Z) (pw ph : Q) (fw fh ratio : option Q) (hs : sep)
          (l : list Q) (pl pr pt pb : Q) (u : string),
     len l <> r - 1 ->
     raises_ValueError
       (PanelSizeLocator_init r c pw ph hs (Sequence l) pl pr pt pb u) /\
     raises_ValueError
       (FigureSizeLocator_init r c fw fh ratio hs (Sequence l) pl pr pt pb u))
  /\
  (forall (r c : Z) (pw ph : Q) (fw fh ratio : option Q) (hs vs : sep)
          (pl pr pt pb : Q) (u : string) (L : PanelSizeLocator),
     outcome (PanelSizeLocator_init r c pw ph hs vs pl pr pt pb u) = Ok L \/
     outcome (FigureSizeLocator_init r c fw fh ratio hs vs pl pr pt pb u) = Ok L ->
     (forall v : Q, hs = Scalar v ->
        L.(hsep) = List.repeat v (Z.to_nat (c - 1)) /\
        (1 <= c -> len L.(hsep) = c - 1)) /\
     (forall v : Q, vs = Scalar v ->
        L.(vsep) = List.repeat v (Z.to_nat (r - 1)) /\
        (1 <= r -> len L.(vsep) = r - 1)))
  /\
  (forall (r : Z) (pw ph : Q) (fw fh ratio : option Q) (vs : sep)
          (pl pr pt pb : Q) (u : string),
     PanelSizeLocator_init r 4 pw ph (Sequence [1; 2]%Q) vs pl pr pt pb u
     = ([], Raise (ValueError Msg.hsep_length)) /\
     raises_ValueError
       (FigureSizeLocator_init r 4 fw fh ratio (Sequence [1; 2]%Q) vs
          pl pr pt pb u))
  /\
  (forall (r c : Z) (pw ph : Q) (fw fh ratio : option Q) (hs vs : sep)
          (pl pr pt pb : Q) (u : string) (v : Q),
     (hs = Scalar v ->
      outcome (PanelSizeLocator_init r c pw ph hs vs pl pr pt pb u)
      <> Raise (ValueError Msg.hsep_length) /\
      outcome (FigureSizeLocator_init r c fw fh ratio hs vs pl pr pt pb u)
      <> Raise (ValueError Msg.hsep_length)) /\
     (vs = Scalar v ->
      outcome (PanelSizeLocator_init r c pw ph hs vs pl pr pt pb u)
      <> Raise (ValueError Msg.vsep_length) /\
      outcome (FigureSizeLocator_init r c fw fh ratio hs vs pl pr pt pb u)
      <> Raise (ValueError Msg.vsep_length)))
  /\
  (forall (r c : Z) (pw ph : Q) (h v : Q) (pl pr pt pb : Q) (u : string),
     let hs' := List.repeat h (Z.to_nat (c - 1)) in
     let vs' := List.repeat v (Z.to_nat (r - 1)) in
     let figwidth := (pl + inject_Z c * pw + sum hs' + pr)%Q in
     let figheight := (pt + inject_Z r * ph + sum vs' + pb)%Q in
     ~ (figwidth == 0)%Q -> ~ (figheight == 0)%Q ->
     PanelSizeLocator_init r c pw ph (Scalar h) (Scalar v) pl pr pt pb u
     = ([], Ok (mkPanelSizeLocator r c pw ph hs' vs' pl pr pt pb u
                  figwidth figheight (pw / figwidth)%Q (ph / figheight)%Q))).
Proof.
  assert (Hh : forall r c fw fh ratio l vs pl pr pt pb u,
             len l <> c - 1 ->
             raises_ValueError
               (FigureSizeLocator_init r c fw fh ratio (Sequence l) vs
                  pl pr pt pb u)).
  { intros r c fw fh ratio l vs pl pr pt pb u H.
    destruct (panel_size_bad_hsep r c fw fh ratio l vs pl pr pt pb H) as [E | E];
      eexists; rewrite (FigureSizeLocator_init_raises _ _ _ _ _ _ _ _ _ _ _ u _ E);
      reflexivity. }
  split; [| split; [| split; [| split; [| split]]]].
  - intros r c pw ph fw fh ratio l vs pl pr pt pb u H. split; [| now apply Hh].
    eexists. rewrite PanelSizeLocator_init_bad_hsep by exact H. reflexivity.
  - intros r c pw ph fw fh ratio hs l pl pr pt pb u H. split.
    + destruct (PanelSizeLocator_init_bad_vsep r c pw ph hs l pl pr pt pb u H)
        as [E | E]; eexists; rewrite E; reflexivity.
    + destruct (panel_size_bad_vsep r c fw fh ratio hs l pl pr pt pb H)
        as [msg E].
      exists msg.
      rewrite (FigureSizeLocator_init_raises _ _ _ _ _ _ _ _ _ _ _ u _ E).
      reflexivity.
  - intros r c pw ph fw fh ratio hs vs pl pr pt pb u L H.
    assert (H' : exists pw' ph',
               outcome (PanelSizeLocator_init r c pw' ph' hs vs pl pr pt pb u)
               = Ok L).
    { destruct H as [H | H]; [eauto |].
      apply FigureSizeLocator_init_delegates in H as (pw' & ph' & _ & H). eauto. }
    destruct H' as (pw' & ph' & H').
    apply PanelSizeLocator_init_Ok_inv in H'
      as (hs' & vs' & Hhs & Hvs & _ & _ & ->).
    simpl. split; intros v Hv.
    + destruct (scalar_broadcast _ v _ _ _ Hv Hhs) as [E1 E2].
      split; [exact E1 |]. intros Hc. apply E2. lia.
    + destruct (scalar_broadcast _ v _ _ _ Hv Hvs) as [E1 E2].
      split; [exact E1 |]. intros Hr. apply E2. lia.
  - intros r pw ph fw fh ratio vs pl pr pt pb u. split.
    + apply PanelSizeLocator_init_bad_hsep. vm_compute. discriminate.
    + apply Hh. vm_compute. discriminate.
  - intros r c pw ph fw fh ratio hs vs pl pr pt pb u v.
    assert (HF : forall msg,
               outcome (FigureSizeLocator_init r c fw fh ratio hs vs
                          pl pr pt pb u) = Raise (ValueError msg) ->
               outcome (panel_size r c fw fh ratio hs vs pl pr pt pb)
               = Raise (ValueError msg) \/
               exists pw' ph',
                 outcome (PanelSizeLocator_init r c pw' ph' hs vs
                            pl pr pt pb u) = Raise (ValueError msg)).
    { intros msg. unfold FigureSizeLocator_init.
      destruct (panel_size r c fw fh ratio hs vs pl pr pt pb)
        as [w [[pw' ph'] | e]]; simpl.
      - destruct (PanelSizeLocator_init r c pw' ph' hs vs pl pr pt pb u)
          as [w' res] eqn:E. simpl. intros ->. right. exists pw', ph'.
        rewrite E. reflexivity.
      - intros He. left. inversion He. reflexivity. }
    split; intros ->; split; intros H.
    + apply PanelSizeLocator_init_ValueError_inv in H
        as [[_ (l & Hl & _)] | [Hm _]]; [discriminate |].
      revert Hm. vm_compute. discriminate.
    + apply HF in H as [H | (pw' & ph' & H)].
      * apply panel_size_ValueError_inv in H as (l & Hl & _). discriminate.
      * apply PanelSizeLocator_init_ValueError_inv in H
          as [[_ (l & Hl & _)] | [Hm _]]; [discriminate |].
        revert Hm. vm_compute. discriminate.
    + apply PanelSizeLocator_init_ValueError_inv in H
        as [[Hm _] | [_ (l & Hl & _)]]; [| discriminate].
      revert Hm. vm_compute. discriminate.
    + apply HF in H as [H | (pw' & ph' & H)].
      * apply panel_size_ValueError_inv in H as (l & Hl & _). discriminate.
      * apply PanelSizeLocator_init_ValueError_inv in H
          as [[Hm _] | [_ (l & Hl & _)]]; [| discriminate].
        revert Hm. vm_compute. discriminate.
  - intros r c pw ph h v pl pr pt pb u hs' vs' figwidth figheight Nw Nh.
    apply PanelSizeLocator_init_returns; try assumption;
      simpl; rewrite list_mul_singleton; reflexivity.
Qed.

Lemma separation_length_validated_witness :
  (len [1; 2; 3]%Q <> 2 - 1 /\
   raises_ValueError
     (PanelSizeLocator_init 2 2 10 20 (Sequence [1; 2; 3]%Q) (Scalar 2)
        5 5 5 5 "mm") /\
   raises_ValueError
     (FigureSizeLocator_init 2 2 (Some 42%Q) None None (Sequence [1; 2; 3]%Q)
        (Scalar 2) 5 5 5 5 "mm")) /\
  PanelSizeLocator_init 2 3 10 20 (Scalar 1) (Scalar 2) 5 5 5 5 "mm"
  = ([], Ok (mkPanelSizeLocator 2 3 10 20 [1; 1]%Q [2]%Q 5 5 5 5 "mm"
               (5 + inject_Z 3 * 10 + sum [1; 1] + 5)%Q
               (5 + inject_Z 2 * 20 + sum [2] + 5)%Q
               (10 / (5 + inject_Z 3 * 10 + sum [1; 1] + 5))%Q
               (20 / (5 + inject_Z 2 * 20 + sum [2] + 5))%Q)).
Proof.
  assert (H : len [1; 2; 3]%Q <> 2 - 1) by (vm_compute; discriminate).
  split.
  - split; [exact H |].
    exact (proj1 separation_length_validated 2 2 10%Q 20%Q (Some 42%Q) None
             None [1; 2; 3]%Q (Scalar 2) 5%Q 5%Q 5%Q 5%Q "mm"%string H).
  - apply (proj2 (proj2 (proj2 (proj2 (proj2 separation_length_validated))))
             2 3 10%Q 20%Q 1%Q 2%Q 5%Q 5%Q 5%Q 5%Q "mm"%string);
      vm_compute; discriminate.
Defined.

(** ** FigureSizeLocator and PanelSizeLocator *)

Lemma example_figure_locator_init :
  FigureSizeLocator_init 2 3 (Some 42%Q) (Some 52%Q) None (Scalar 1) (Scalar 2)
    5 5 5 5 "mm"
  = ([], Ok example_figure_locator).
Proof. vm_compute. reflexivity. Qed.

Lemma example_figure_locator_constructed : constructed example_figure_locator.
Proof.
  apply (by_figure_size _ 2 3 (Some 42%Q) (Some 52%Q) None (Scalar 1) (Scalar 2)
           5 5 5 5 "mm").
  rewrite example_figure_locator_init. reflexivity.
Defined.

Lemma FigureSizeLocator_init_Ok
    (r c : Z) (fw fh ratio : option Q) (hs vs : sep) (pl pr pt pb : Q)
    (u : string) (w : list string) (pw ph : Q) :
  panel_size r c fw fh ratio hs vs pl pr pt pb = (w, Ok (pw, ph)) ->
  FigureSizeLocator_init r c fw fh ratio hs vs pl pr pt pb u
  = (w, outcome (PanelSizeLocator_init r c pw ph hs vs pl pr pt pb u)).
Proof.
  intros H. unfold FigureSizeLocator_init. rewrite H. simpl.
  pose proof (PanelSizeLocator_init_warnings r c pw ph hs vs pl pr pt pb u) as Hw.
  destruct (PanelSizeLocator_init r c pw ph hs vs pl pr pt pb u) as [w' res].
  simpl in Hw. subst w'. rewrite app_nil_r. reflexivity.
Qed.

(** C3. [FigureSizeLocator] is the [PanelSizeLocator] built from the panel
    size that [panel_size] derives: it emits what [panel_size] emits and
    returns or raises what that [PanelSizeLocator] construction does.  With
    figwidth=42, figheight=52, rows=2, columns=3, hsep=1, vsep=2 and all
    paddings 5 the derived panel size is 10 by 20, and for every
    (row, column) of the grid the position equals that of the
    [PanelSizeLocator] built with panelwidth=10, panelheight=20. *)
Theorem figure_size_locator_equivalence :
  (forall (r c : Z) (fw fh ratio : option Q) (hs vs : sep) (pl pr pt pb : Q)
          (u : string) (w : list string) (pw ph : Q),
     panel_size r c fw fh ratio hs vs pl pr pt pb = (w, Ok (pw, ph)) ->
     FigureSizeLocator_init r c fw fh ratio hs vs pl pr pt pb u
     = (w, outcome (PanelSizeLocator_init r c pw ph hs vs pl pr pt pb u)))
  /\
  (exists (pw ph : Q) (Lf Lp : PanelSizeLocator),
     panel_size 2 3 (Some 42%Q) (Some 52%Q) None (Scalar 1) (Scalar 2) 5 5 5 5
     = ([], Ok (pw, ph)) /\
     (pw == 10)%Q /\ (ph == 20)%Q /\
     FigureSizeLocator_init 2 3 (Some 42%Q) (Some 52%Q) None (Scalar 1)
       (Scalar 2) 5 5 5 5 "mm" = ([], Ok Lf) /\
     PanelSizeLocator_init 2 3 10 20 (Scalar 1) (Scalar 2) 5 5 5 5 "mm"
     = ([], Ok Lp) /\
     forall row column : Z,
     0 <= row < 2 -> 0 <= column < 3 ->
     exists a b : rect,
       panel_position Lf row column = ([], Ok a) /\
       panel_position Lp row column = ([], Ok b) /\
       rect_eq a b).
Proof.
  split; [exact FigureSizeLocator_init_Ok |].
  exists (30 # 3)%Q, (40 # 2)%Q, example_figure_locator, example_locator.
  split; [vm_compute; reflexivity |].
  split; [vm_compute; reflexivity |].
  split; [vm_compute; reflexivity |].
  split; [exact example_figure_locator_init |].
  split; [exact example_locator_init |].
  intros row column _ _. do 2 eexists.
  split; [apply panel_position_total, constructed_well_formed,
            example_figure_locator_constructed |].
  split; [apply panel_position_total, constructed_well_formed,
            example_locator_constructed |].
  cbn [example_figure_locator example_locator rect_eq
       padleft panelwidth hsep figwidth figheight padtop panelheight vsep].
  set (sh := sum (slice_to [1; 1]%Q column)).
  set (sv := sum (slice_to [2]%Q row)).
  repeat split; field.
Qed.

Lemma figure_size_locator_equivalence_witness :
  FigureSizeLocator_init 2 3 (Some 42%Q) (Some 52%Q) None (Scalar 1) (Scalar 2)
    5 5 5 5 "mm"
  = ([], outcome (PanelSizeLocator_init 2 3 (30 # 3) (40 # 2) (Scalar 1)
                    (Scalar 2) 5 5 5 5 "mm")).
Proof.
  apply (proj1 figure_size_locator_equivalence). vm_compute. reflexivity.
Defined.

(** ** panel_size *)

Lemma inject_Z_nonzero (n : Z) : n <> 0 -> ~ (inject_Z n == 0)%Q.
Proof. intros Hn H. unfold Qeq in H. simpl in H. lia. Qed.

Section PanelSizeBranches.

Variables (r c : Z) (ratio : option Q) (hs vs : sep) (pl pr pt pb : Q).
Variables (hs' vs' : list Q).
Hypothesis Hhs : outcome (sep_sequence hs (c - 1) Msg.hsep_length) = Ok hs'.
Hypothesis Hvs : outcome (sep_sequence vs (r - 1) Msg.vsep_length) = Ok vs'.

(** Only the figure height is given. *)
Lemma panel_size_height_only (H : Q) :
  r <> 0 ->
  panel_size r c None (Some H) ratio hs vs pl pr pt pb =
    let panelheight := height_left r H vs' pt pb in
    if Qle_bool panelheight 0
    then ([], Raise (ValueError Msg.height_too_small))
    else ([], Ok ((panelheight * or_else ratio 1)%Q, panelheight)).
Proof.
  intros Hr. unfold panel_size.
  rewrite (sep_sequence_ret _ _ _ _ Hhs), bind_ret_l.
  rewrite (sep_sequence_ret _ _ _ _ Hvs), bind_ret_l.
  rewrite (truediv_nonzero _ _ (inject_Z_nonzero r Hr)), bind_ret_l.
  fold (height_left r H vs' pt pb). cbv zeta.
  destruct (Qle_bool (height_left r H vs' pt pb) 0); reflexivity.
Qed.

(** Only the figure width is given. *)
Lemma panel_size_width_only (W : Q) :
  c <> 0 ->
  panel_size r c (Some W) None ratio hs vs pl pr pt pb =
    let panelwidth := width_left c W hs' pl pr in
    if Qle_bool panelwidth 0
    then ([], Raise (ValueError Msg.width_too_small))
    else ([], Ok (panelwidth, (panelwidth / or_else ratio 1)%Q)).
Proof.
  intros Hc. unfold panel_size.
  rewrite (sep_sequence_ret _ _ _ _ Hhs), bind_ret_l.
  rewrite (sep_sequence_ret _ _ _ _ Hvs), bind_ret_l.
  rewrite (truediv_nonzero _ _ (inject_Z_nonzero c Hc)), bind_ret_l.
  fold (width_left c W hs' pl pr). cbv zeta.
  destruct (Qle_bool (width_left c W hs' pl pr) 0); [reflexivity |].
  rewrite truediv_nonzero, bind_ret_l; [reflexivity |].
  unfold or_else, truthy. destruct ratio as [v |]; [| discriminate].
  destruct (Qeq_bool v 0) eqn:E; simpl; [discriminate |].
  intros Hv. apply Qeq_eq_bool in Hv. congruence.
Qed.

(** Both figure dimensions are given. *)
Lemma panel_size_both (W H : Q) :
  r <> 0 -> c <> 0 ->
  panel_size r c (Some W) (Some H) ratio hs vs pl pr pt pb =
    let panelwidth := width_left c W hs' pl pr in
    let panelheight := height_left r H vs' pt pb in
    (match ratio with Some _ => [Msg.ratio_ignored] | None => [] end,
     if Qle_bool panelwidth 0 || Qle_bool panelheight 0
     then Raise (ValueError Msg.dimensions_too_small)
     else Ok (panelwidth, panelheight)).
Proof.
  intros Hr Hc. unfold panel_size.
  rewrite (sep_sequence_ret _ _ _ _ Hhs), bind_ret_l.
  rewrite (sep_sequence_ret _ _ _ _ Hvs), bind_ret_l.
  rewrite (truediv_nonzero _ _ (inject_Z_nonzero c Hc)).
  rewrite (truediv_nonzero _ _ (inject_Z_nonzero r Hr)).
  fold (width_left c W hs' pl pr). fold (height_left r H vs' pt pb).
  cbv zeta.
  destruct ratio;
    destruct (Qle_bool (width_left c W hs' pl pr) 0
              || Qle_bool (height_left r H vs' pt pb) 0) eqn:E;
    unfold bind, warn, ret, raise; rewrite E; reflexivity.
Qed.

End PanelSizeBranches.

Lemma Qle_bool_true (a : Q) : (a <= 0)%Q -> Qle_bool a 0 = true.
Proof. intros H. now apply Qle_bool_iff. Qed.

(** C4, as the code has it.  When the separations are well-formed and the
    grid shape is not zero: with only figheight given, a panel height <= 0
    makes [panel_size] fail with the [ValueError] that names the figure
    height; with only figwidth given, a panel width <= 0 fails with the one
    that names the figure width; with both given, a panel width or height
    <= 0 fails with a [ValueError] whose single message names neither.  The
    three messages differ.  A [FigureSizeLocator] with figwidth=5, columns=3,
    padleft=padright=3 fails with the message of the insufficient width. *)
Theorem panel_size_insufficient :
  (forall (r c : Z) (ratio : option Q) (hs vs : sep) (pl pr pt pb : Q)
          (hs' vs' : list Q),
     outcome (sep_sequence hs (c - 1) Msg.hsep_length) = Ok hs' ->
     outcome (sep_sequence vs (r - 1) Msg.vsep_length) = Ok vs' ->
     (forall H : Q,
        r <> 0 -> (height_left r H vs' pt pb <= 0)%Q ->
        panel_size r c None (Some H) ratio hs vs pl pr pt pb
        = ([], Raise (ValueError Msg.height_too_small))) /\
     (forall W : Q,
        c <> 0 -> (width_left c W hs' pl pr <= 0)%Q ->
        panel_size r c (Some W) None ratio hs vs pl pr pt pb
        = ([], Raise (ValueError Msg.width_too_small))) /\
     (forall W H : Q,
        r <> 0 -> c <> 0 ->
        (width_left c W hs' pl pr <= 0)%Q \/ (height_left r H vs' pt pb <= 0)%Q ->
        outcome (panel_size r c (Some W) (Some H) ratio hs vs pl pr pt pb)
        = Raise (ValueError Msg.dimensions_too_small)))
  /\
  (Msg.width_too_small <> Msg.height_too_small /\
   Msg.dimensions_too_small <> Msg.width_too_small /\
   Msg.dimensions_too_small <> Msg.height_too_small)
  /\
  (forall (r : Z) (ratio : option Q) (u : string),
     FigureSizeLocator_init r 3 (Some 5%Q) None ratio (Scalar 0) (Scalar 0)
       3 3 0 0 u
     = ([], Raise (ValueError Msg.width_too_small))).
Proof.
  split; [| split].
  - intros r c ratio hs vs pl pr pt pb hs' vs' Hhs Hvs. split; [| split].
    + intros H Hr Hle.
      rewrite (panel_size_height_only r c ratio hs vs pl pr pt pb hs' vs' Hhs Hvs H Hr).
      cbv zeta. rewrite (Qle_bool_true _ Hle). reflexivity.
    + intros W Hc Hle.
      rewrite (panel_size_width_only r c ratio hs vs pl pr pt pb hs' vs' Hhs Hvs W Hc).
      cbv zeta. rewrite (Qle_bool_true _ Hle). reflexivity.
    + intros W H Hr Hc Hle.
      rewrite (panel_size_both r c ratio hs vs pl pr pt pb hs' vs' Hhs Hvs W H Hr Hc).
      cbv zeta. unfold outcome. cbn [snd].
      destruct Hle as [Hle | Hle]; rewrite (Qle_bool_true _ Hle);
        [| rewrite orb_true_r]; reflexivity.
  - repeat split; vm_compute; discriminate.
  - intros r ratio u. apply FigureSizeLocator_init_raises.
    rewrite (panel_size_width_only r 3 ratio (Scalar 0) (Scalar 0) 3 3 0 0
               [0; 0]%Q (list_mul [0%Q] (r - 1)) eq_refl eq_refl 5);
      [| discriminate].
    reflexivity.
Qed.

Lemma panel_size_insufficient_witness :
  panel_size 2 3 None (Some 6%Q) None (Scalar 1) (Scalar 2) 5 5 5 5
  = ([], Raise (ValueError Msg.height_too_small)).
Proof.
  refine (proj1 (proj1 panel_size_insufficient 2 3 None (Scalar 1) (Scalar 2)
                   5%Q 5%Q 5%Q 5%Q [1; 1]%Q [2]%Q eq_refl eq_refl) 6%Q _ _).
  - discriminate.
  - vm_compute. discriminate.
Defined.

(** C4, as stated, fails.  With both figure dimensions given, a figure too
    narrow but tall enough and a figure wide enough but too short are
    rejected with the same message; and the dimension derived through
    [panelratio] is not checked: a negative ratio returns a negative panel
    width. *)
Lemma panel_size_message_not_distinguishing :
  ((width_left 1 1 [] 2 0 <= 0)%Q /\ (0 < height_left 1 10 [] 0 0)%Q /\
   panel_size 1 1 (Some 1%Q) (Some 10%Q) None (Scalar 0) (Scalar 0) 2 0 0 0
   = ([], Raise (ValueError Msg.dimensions_too_small))) /\
  ((0 < width_left 1 10 [] 0 0)%Q /\ (height_left 1 1 [] 2 0 <= 0)%Q /\
   panel_size 1 1 (Some 10%Q) (Some 1%Q) None (Scalar 0) (Scalar 0) 0 0 2 0
   = ([], Raise (ValueError Msg.dimensions_too_small))) /\
  panel_size 1 1 None (Some 10%Q) (Some (-1)%Q) (Scalar 0) (Scalar 0) 0 0 0 0
  = ([], Ok ((-10)%Q, 10%Q)).
Proof.
  repeat split; vm_compute; congruence.
Qed.

(** The part of [panel_size] that runs, with both dimensions given, after
    the check of [panelratio]. *)
Lemma panel_size_both_unfold
    (r c : Z) (W H : Q) (ratio : option Q) (hs vs : sep) (pl pr pt pb : Q) :
  panel_size r c (Some W) (Some H) ratio hs vs pl pr pt pb =
    (hs' <- sep_sequence hs (c - 1) Msg.hsep_length ;;
     vs' <- sep_sequence vs (r - 1) Msg.vsep_length ;;
     (match ratio with
      | Some _ => warn Msg.ratio_ignored
      | None => ret tt
      end) ;;;
     panelwidth <- truediv (W - sum hs' - pl - pr)%Q (inject_Z c) ;;
     panelheight <- truediv (H - sum vs' - pt - pb)%Q (inject_Z r) ;;
     if Qle_bool panelwidth 0 || Qle_bool panelheight 0
     then raise (ValueError Msg.dimensions_too_small)
     else ret (panelwidth, panelheight)).
Proof. reflexivity. Qed.

Lemma sizes_warnings (c r : Z) (a b : Q) :
  warnings
    (panelwidth <- truediv a (inject_Z c) ;;
     panelheight <- truediv b (inject_Z r) ;;
     if Qle_bool panelwidth 0 || Qle_bool panelheight 0
     then raise (ValueError Msg.dimensions_too_small)
     else ret (panelwidth, panelheight)) = [].
Proof.
  apply warnings_bind_nil; [apply truediv_warnings | intros pw].
  apply warnings_bind_nil; [apply truediv_warnings | intros ph].
  destruct (Qle_bool pw 0 || Qle_bool ph 0); reflexivity.
Qed.

(** C8. With both figwidth and figheight given, a supplied panelratio is
    ignored: the call returns or raises exactly what it does without
    panelratio, which emits nothing; whenever the call without panelratio
    returns a panel size, the call with it returns the same size and emits
    the one warning; and the warning is emitted as soon as the separations
    have passed their check. *)
Theorem panelratio_ignored_with_warning
    (r c : Z) (W H ratio : Q) (hs vs : sep) (pl pr pt pb : Q) :
  outcome (panel_size r c (Some W) (Some H) (Some ratio) hs vs pl pr pt pb)
  = outcome (panel_size r c (Some W) (Some H) None hs vs pl pr pt pb) /\
  warnings (panel_size r c (Some W) (Some H) None hs vs pl pr pt pb) = [] /\
  (forall size : Q * Q,
     outcome (panel_size r c (Some W) (Some H) None hs vs pl pr pt pb)
     = Ok size ->
     panel_size r c (Some W) (Some H) (Some ratio) hs vs pl pr pt pb
     = ([Msg.ratio_ignored], Ok size)) /\
  (forall hs' vs' : list Q,
     outcome (sep_sequence hs (c - 1) Msg.hsep_length) = Ok hs' ->
     outcome (sep_sequence vs (r - 1) Msg.vsep_length) = Ok vs' ->
     warnings (panel_size r c (Some W) (Some H) (Some ratio) hs vs pl pr pt pb)
     = [Msg.ratio_ignored]).
Proof.
  rewrite !panel_size_both_unfold.
  destruct (sep_sequence_result hs (c - 1) Msg.hsep_length) as [[hs' Eh] | Eh];
    rewrite Eh; [rewrite !bind_ret_l | ].
  2: { split; [reflexivity |]. split; [reflexivity |].
       split; [intros size; discriminate | intros hs' vs'; discriminate]. }
  destruct (sep_sequence_result vs (r - 1) Msg.vsep_length) as [[vs' Ev] | Ev];
    rewrite Ev; [rewrite !bind_ret_l | ].
  2: { split; [reflexivity |]. split; [reflexivity |].
       split; [intros size; discriminate | intros hs'' vs' _; discriminate]. }
  pose proof (sizes_warnings c r (W - sum hs' - pl - pr)%Q
                (H - sum vs' - pt - pb)%Q) as Hw.
  destruct (panelwidth <- truediv (W - sum hs' - pl - pr)%Q (inject_Z c) ;;
            panelheight <- truediv (H - sum vs' - pt - pb)%Q (inject_Z r) ;;
            if Qle_bool panelwidth 0 || Qle_bool panelheight 0
            then raise (ValueError Msg.dimensions_too_small)
            else ret (panelwidth, panelheight)) as [w res].
  simpl in Hw. subst w. simpl.
  split; [reflexivity |]. split; [reflexivity |].
  split; [intros size ->; reflexivity | intros hs'' vs'' _ _; reflexivity].
Qed.

Lemma panelratio_ignored_with_warning_witness :
  panel_size 2 3 (Some 42%Q) (Some 52%Q) (Some 2%Q) (Scalar 1) (Scalar 2)
    5 5 5 5
  = ([Msg.ratio_ignored], Ok ((30 # 3)%Q, (40 # 2)%Q)).
Proof.
  refine (proj1 (proj2 (proj2
            (panelratio_ignored_with_warning 2 3 42%Q 52%Q 2%Q (Scalar 1)
               (Scalar 2) 5%Q 5%Q 5%Q 5%Q))) _ _).
  vm_compute. reflexivity.
Defined.

Lemma or_else_zero (z d : Q) : (z == 0)%Q -> or_else (Some z) d = d.
Proof.
  intros Hz. unfold or_else, truthy. apply Qeq_eq_bool in Hz. rewrite Hz.
  reflexivity.
Qed.

Lemma or_else_one : or_else (Some 1%Q) 1 = 1%Q.
Proof. reflexivity. Qed.

Lemma Qle_bool_false (a : Q) : (0 < a)%Q -> Qle_bool a 0 = false.
Proof.
  intros H. destruct (Qle_bool a 0) eqn:E; [| reflexivity].
  apply Qle_bool_iff in E. lra.
Qed.

(** C10. With exactly one figure dimension given, panelratio = 0 behaves as
    panelratio = 1: the call returns or raises the same, any panel size it
    returns is square, and whenever the given dimension leaves a positive
    panel dimension (separations well-formed, grid shape not zero) it returns
    that dimension for both sides of the panel. *)
Theorem panelratio_zero_is_one
    (r c : Z) (D z : Q) (hs vs : sep) (pl pr pt pb : Q) :
  (z == 0)%Q ->
  (panel_size r c None (Some D) (Some z) hs vs pl pr pt pb
   = panel_size r c None (Some D) (Some 1%Q) hs vs pl pr pt pb /\
   panel_size r c (Some D) None (Some z) hs vs pl pr pt pb
   = panel_size r c (Some D) None (Some 1%Q) hs vs pl pr pt pb) /\
  (forall (w : list string) (pw ph : Q),
     panel_size r c None (Some D) (Some z) hs vs pl pr pt pb = (w, Ok (pw, ph)) \/
     panel_size r c (Some D) None (Some z) hs vs pl pr pt pb = (w, Ok (pw, ph)) ->
     (pw == ph)%Q) /\
  (forall hs' vs' : list Q,
     outcome (sep_sequence hs (c - 1) Msg.hsep_length) = Ok hs' ->
     outcome (sep_sequence vs (r - 1) Msg.vsep_length) = Ok vs' ->
     (r <> 0 -> (0 < height_left r D vs' pt pb)%Q ->
      panel_size r c None (Some D) (Some z) hs vs pl pr pt pb
      = ([], Ok ((height_left r D vs' pt pb * 1)%Q, height_left r D vs' pt pb)))
     /\
     (c <> 0 -> (0 < width_left c D hs' pl pr)%Q ->
      panel_size r c (Some D) None (Some z) hs vs pl pr pt pb
      = ([], Ok (width_left c D hs' pl pr, (width_left c D hs' pl pr / 1)%Q)))).
Proof.
  intros Hz.
  assert (Eq : panel_size r c None (Some D) (Some z) hs vs pl pr pt pb
               = panel_size r c None (Some D) (Some 1%Q) hs vs pl pr pt pb /\
               panel_size r c (Some D) None (Some z) hs vs pl pr pt pb
               = panel_size r c (Some D) None (Some 1%Q) hs vs pl pr pt pb).
  { unfold panel_size. rewrite (or_else_zero z 1 Hz), or_else_one.
    split; reflexivity. }
  split; [exact Eq |]. split.
  - intros w pw ph Hsize. destruct Eq as [Eh Ew].
    rewrite Eh, Ew in Hsize. unfold panel_size in Hsize.
    rewrite or_else_one in Hsize.
    destruct Hsize as [Hsize | Hsize];
      apply bind_Ok_inv in Hsize as (w1 & hs' & w2 & _ & Hsize & _);
      apply bind_Ok_inv in Hsize as (w3 & vs' & w4 & _ & Hsize & _);
      apply bind_Ok_inv in Hsize as (w5 & d & w6 & _ & Hsize & _);
      destruct (Qle_bool d 0); try discriminate.
    + inversion Hsize; subst. ring.
    + rewrite truediv_nonzero, bind_ret_l in Hsize by discriminate.
      inversion Hsize; subst. field.
  - intros hs' vs' Hhs Hvs. split.
    + intros Hr Hpos.
      rewrite (panel_size_height_only r c (Some z) hs vs pl pr pt pb hs' vs'
                 Hhs Hvs D Hr).
      cbv zeta. rewrite (Qle_bool_false _ Hpos), (or_else_zero z 1 Hz).
      reflexivity.
    + intros Hc Hpos.
      rewrite (panel_size_width_only r c (Some z) hs vs pl pr pt pb hs' vs'
                 Hhs Hvs D Hc).
      cbv zeta. rewrite (Qle_bool_false _ Hpos), (or_else_zero z 1 Hz).
      reflexivity.
Qed.

Lemma panelratio_zero_is_one_witness :
  (0 == 0)%Q /\
  panel_size 2 3 None (Some 52%Q) (Some 0%Q) (Scalar 1) (Scalar 2) 5 5 5 5
  = panel_size 2 3 None (Some 52%Q) (Some 1%Q) (Scalar 1) (Scalar 2) 5 5 5 5.
Proof.
  assert (Hz : (0 == 0)%Q) by reflexivity.
  split; [exact Hz |].
  exact (proj1 (proj1 (panelratio_zero_is_one 2 3 52%Q 0%Q (Scalar 1) (Scalar 2)
                         5%Q 5%Q 5%Q 5%Q Hz))).
Defined.

(** * Further properties of the two locators *)

(** ** Construction of a PanelSizeLocator *)

(** Once the separations have passed their check, [__init__] returns
    exactly when neither the figure width nor the figure height it computes
    is zero, and raises [ZeroDivisionError] otherwise. *)
Theorem PanelSizeLocator_init_outcome
    (r c : Z) (pw ph : Q) (hs vs : sep) (pl pr pt pb : Q) (u : string)
    (hs' vs' : list Q) :
  outcome (sep_sequence hs (c - 1) Msg.hsep_length) = Ok hs' ->
  outcome (sep_sequence vs (r - 1) Msg.vsep_length) = Ok vs' ->
  let fw := (pl + inject_Z c * pw + sum hs' + pr)%Q in
  let fh := (pt + inject_Z r * ph + sum vs' + pb)%Q in
  ((fw == 0)%Q \/ (fh == 0)%Q ->
   PanelSizeLocator_init r c pw ph hs vs pl pr pt pb u
   = ([], Raise ZeroDivisionError)) /\
  (~ (fw == 0)%Q -> ~ (fh == 0)%Q ->
   PanelSizeLocator_init r c pw ph hs vs pl pr pt pb u
   = ([], Ok (mkPanelSizeLocator r c pw ph hs' vs' pl pr pt pb u fw fh
                (pw / fw)%Q (ph / fh)%Q))).
Proof.
  intros Hhs Hvs fw fh. unfold PanelSizeLocator_init.
  rewrite (sep_sequence_ret _ _ _ _ Hhs), bind_ret_l.
  rewrite (sep_sequence_ret _ _ _ _ Hvs), bind_ret_l.
  fold fw. fold fh. cbv zeta. unfold truediv. split.
  - intros Hz. destruct (Qeq_bool fw 0) eqn:Ew; [reflexivity |].
    destruct Hz as [Hz | Hz].
    + apply Qeq_eq_bool in Hz. congruence.
    + apply Qeq_eq_bool in Hz. rewrite bind_ret_l, Hz. reflexivity.
  - intros Hw Hh.
    destruct (Qeq_bool fw 0) eqn:Ew; [apply Qeq_bool_eq in Ew; contradiction |].
    destruct (Qeq_bool fh 0) eqn:Eh; [apply Qeq_bool_eq in Eh; contradiction |].
    reflexivity.
Qed.

Lemma PanelSizeLocator_init_outcome_witness :
  PanelSizeLocator_init 1 1 0 0 (Scalar 0) (Scalar 0) 0 0 0 0 "mm"
  = ([], Raise ZeroDivisionError).
Proof.
  refine (proj1 (PanelSizeLocator_init_outcome 1 1 0%Q 0%Q (Scalar 0) (Scalar 0)
                   0%Q 0%Q 0%Q 0%Q "mm"%string [] [] eq_refl eq_refl) _).
  left. reflexivity.
Defined.

(** ** Order keyword of the iterator *)

(** Every order keyword other than "row" and "column" makes
    [panel_position_iterator] raise the [ValueError] of the order keyword,
    on any locator and before any position is computed. *)
Theorem panel_position_iterator_bad_order (L : PanelSizeLocator) (order : string) :
  order <> "row"%string -> order <> "column"%string ->
  panel_position_iterator L order = ([], Raise (ValueError Msg.bad_order)).
Proof.
  intros Hr Hc. unfold panel_position_iterator.
  apply String.eqb_neq in Hr, Hc. rewrite Hr, Hc. reflexivity.
Qed.

Lemma panel_position_iterator_bad_order_witness :
  panel_position_iterator example_locator "rows"
  = ([], Raise (ValueError Msg.bad_order)).
Proof.
  apply panel_position_iterator_bad_order; discriminate.
Defined.

(** ** Errors of panel_size and of the constructors *)

(** Which error comes first.  Without any figure dimension [panel_size]
    raises its own [ValueError] whatever the separations are; with one, a
    wrong-length hsep raises the hsep message whatever vsep is, and a
    wrong-length vsep after a good hsep raises the vsep message -- in
    [panel_size] and in [PanelSizeLocator.__init__], before any warning or
    division, so also on a grid with zero rows or columns. *)
Theorem separation_errors_come_first
    (r c : Z) (pw ph : Q) (fw fh ratio : option Q) (pl pr pt pb : Q) (u : string) :
  (forall hs vs : sep,
     panel_size r c None None ratio hs vs pl pr pt pb
     = ([], Raise (ValueError Msg.no_dimension))) /\
  (forall (l : list Q) (vs : sep),
     len l <> c - 1 ->
     PanelSizeLocator_init r c pw ph (Sequence l) vs pl pr pt pb u
     = ([], Raise (ValueError Msg.hsep_length)) /\
     (fw <> None \/ fh <> None ->
      panel_size r c fw fh ratio (Sequence l) vs pl pr pt pb
      = ([], Raise (ValueError Msg.hsep_length)))) /\
  (forall (hs : sep) (hs' l : list Q),
     outcome (sep_sequence hs (c - 1) Msg.hsep_length) = Ok hs' ->
     len l <> r - 1 ->
     PanelSizeLocator_init r c pw ph hs (Sequence l) pl pr pt pb u
     = ([], Raise (ValueError Msg.vsep_length)) /\
     (fw <> None \/ fh <> None ->
      panel_size r c fw fh ratio hs (Sequence l) pl pr pt pb
      = ([], Raise (ValueError Msg.vsep_length)))).
Proof.
  split; [reflexivity |]. split.
  - intros l vs Hl. split; [now apply PanelSizeLocator_init_bad_hsep |].
    intros Hdim. unfold panel_size.
    rewrite (sep_sequence_wrong_length l _ _ Hl).
    destruct fw, fh; try reflexivity. destruct Hdim; congruence.
  - intros hs hs' l Hhs Hl. split.
    + unfold PanelSizeLocator_init.
      rewrite (sep_sequence_ret _ _ _ _ Hhs), bind_ret_l.
      rewrite (sep_sequence_wrong_length l _ _ Hl). reflexivity.
    + intros Hdim. unfold panel_size.
      rewrite (sep_sequence_ret _ _ _ _ Hhs).
      destruct fw, fh; try (destruct Hdim; congruence);
        rewrite bind_ret_l, (sep_sequence_wrong_length l _ _ Hl); reflexivity.
Qed.

Lemma separation_errors_come_first_witness :
  PanelSizeLocator_init 0 0 10 20 (Scalar 1) (Sequence [2]%Q) 5 5 5 5 "mm"
  = ([], Raise (ValueError Msg.vsep_length)) /\
  (Some 42%Q <> None \/ @None Q <> None ->
   panel_size 0 0 (Some 42%Q) None (Some 2%Q) (Scalar 1) (Sequence [2]%Q)
     5 5 5 5
   = ([], Raise (ValueError Msg.vsep_length))).
Proof.
  refine (proj2 (proj2 (separation_errors_come_first 0 0 10%Q 20%Q (Some 42%Q)
                          None (Some 2%Q) 5%Q 5%Q 5%Q 5%Q "mm"%string))
            (Scalar 1) [] [2]%Q eq_refl _).
  vm_compute. discriminate.
Defined.

(** A grid without columns or without rows.  Once the separations have
    passed, a given figwidth with columns = 0 makes [panel_size] raise
    [ZeroDivisionError], and so does a given figheight with rows = 0 when
    the width part did not fail first; no [ValueError] names the empty
    grid. *)
Theorem panel_size_empty_grid
    (r c : Z) (fw fh ratio : option Q) (hs vs : sep) (pl pr pt pb : Q)
    (hs' vs' : list Q) :
  outcome (sep_sequence hs (c - 1) Msg.hsep_length) = Ok hs' ->
  outcome (sep_sequence vs (r - 1) Msg.vsep_length) = Ok vs' ->
  (c = 0 /\ fw <> None) \/ (r = 0 /\ fh <> None /\ (c <> 0 \/ fw = None)) ->
  outcome (panel_size r c fw fh ratio hs vs pl pr pt pb)
  = Raise ZeroDivisionError.
Proof.
  intros Hhs Hvs Hgrid. unfold panel_size.
  rewrite (sep_sequence_ret _ _ _ _ Hhs), (sep_sequence_ret _ _ _ _ Hvs).
  destruct fw as [W |], fh as [H |];
    try (exfalso; destruct Hgrid as [[_ G] | (_ & G & _)]; congruence);
    rewrite !bind_ret_l.
  - destruct Hgrid as [[-> _] | (-> & _ & [Hc | ?])]; [| | discriminate].
    + destruct ratio; reflexivity.
    + rewrite (truediv_nonzero _ _ (inject_Z_nonzero c Hc)).
      destruct ratio; reflexivity.
  - destruct Hgrid as [[-> _] | (_ & G & _)]; [reflexivity | congruence].
  - destruct Hgrid as [[_ G] | (-> & _)]; [congruence | reflexivity].
Qed.

Lemma panel_size_empty_grid_witness :
  outcome (panel_size 2 0 (Some 42%Q) None None (Scalar 1) (Scalar 2) 5 5 5 5)
  = Raise ZeroDivisionError.
Proof.
  apply (panel_size_empty_grid 2 0 (Some 42%Q) None None (Scalar 1) (Scalar 2)
           5%Q 5%Q 5%Q 5%Q [] [2]%Q eq_refl eq_refl).
  left. split; [reflexivity | discriminate].
Defined.

(** ** Warnings *)

Lemma panel_size_warnings
    (r c : Z) (fw fh ratio : option Q) (hs vs : sep) (pl pr pt pb : Q) :
  warnings (panel_size r c fw fh ratio hs vs pl pr pt pb) =
    match fw, fh, ratio,
          outcome (sep_sequence hs (c - 1) Msg.hsep_length),
          outcome (sep_sequence vs (r - 1) Msg.vsep_length) with
    | Some _, Some _, Some _, Ok _, Ok _ => [Msg.ratio_ignored]
    | _, _, _, _, _ => []
    end.
Proof.
  unfold panel_size.
  destruct fw as [W |], fh as [H |]; try reflexivity;
    rewrite (sep_sequence_outcome hs), (sep_sequence_outcome vs);
    destruct (outcome (sep_sequence hs _ _)) as [hs' | e];
    try (destruct ratio; reflexivity);
    destruct (outcome (sep_sequence vs _ _)) as [vs' | e];
    try (destruct ratio; reflexivity).
  - change ([], Ok hs') with (ret hs'). change ([], Ok vs') with (ret vs').
    rewrite !bind_ret_l.
    pose proof (sizes_warnings c r (W - sum hs' - pl - pr)%Q
                  (H - sum vs' - pt - pb)%Q) as Hw.
    destruct (panelwidth <- truediv (W - sum hs' - pl - pr)%Q (inject_Z c) ;;
              panelheight <- truediv (H - sum vs' - pt - pb)%Q (inject_Z r) ;;
              if Qle_bool panelwidth 0 || Qle_bool panelheight 0
              then raise (ValueError Msg.dimensions_too_small)
              else ret (panelwidth, panelheight)) as [w res].
    simpl in Hw. subst w. destruct ratio; reflexivity.
  - change ([], Ok hs') with (ret hs'). change ([], Ok vs') with (ret vs').
    rewrite !bind_ret_l. unfold truediv.
    destruct (Qeq_bool (inject_Z c) 0); [destruct ratio; reflexivity |].
    rewrite bind_ret_l. destruct (Qle_bool _ 0); [destruct ratio; reflexivity |].
    destruct (Qeq_bool (or_else ratio 1) 0); destruct ratio; reflexivity.
  - change ([], Ok hs') with (ret hs'). change ([], Ok vs') with (ret vs').
    rewrite !bind_ret_l. unfold truediv.
    destruct (Qeq_bool (inject_Z r) 0); [destruct ratio; reflexivity |].
    rewrite bind_ret_l. destruct (Qle_bool _ 0); destruct ratio; reflexivity.
Qed.

(** The only diagnostic either constructor can emit is the one about an
    ignored panelratio, at most once: [PanelSizeLocator] emits nothing, and
    [FigureSizeLocator] emits it exactly when figwidth, figheight and
    panelratio are all given and both separations pass their check. *)
Theorem constructor_warnings
    (r c : Z) (pw ph : Q) (fw fh ratio : option Q) (hs vs : sep)
    (pl pr pt pb : Q) (u : string) :
  warnings (PanelSizeLocator_init r c pw ph hs vs pl pr pt pb u) = [] /\
  (warnings (FigureSizeLocator_init r c fw fh ratio hs vs pl pr pt pb u) = [] \/
   warnings (FigureSizeLocator_init r c fw fh ratio hs vs pl pr pt pb u)
   = [Msg.ratio_ignored]) /\
  (warnings (FigureSizeLocator_init r c fw fh ratio hs vs pl pr pt pb u)
   = [Msg.ratio_ignored] <->
   fw <> None /\ fh <> None /\ ratio <> None /\
   (exists hs', outcome (sep_sequence hs (c - 1) Msg.hsep_length) = Ok hs') /\
   (exists vs', outcome (sep_sequence vs (r - 1) Msg.vsep_length) = Ok vs')).
Proof.
  split; [apply PanelSizeLocator_init_warnings |].
  assert (E : warnings (FigureSizeLocator_init r c fw fh ratio hs vs
                          pl pr pt pb u)
              = warnings (panel_size r c fw fh ratio hs vs pl pr pt pb)).
  { unfold FigureSizeLocator_init.
    destruct (panel_size r c fw fh ratio hs vs pl pr pt pb) as [w [[pw' ph'] | e]];
      [| reflexivity].
    simpl.
    pose proof (PanelSizeLocator_init_warnings r c pw' ph' hs vs pl pr pt pb u)
      as Hw.
    destruct (PanelSizeLocator_init r c pw' ph' hs vs pl pr pt pb u) as [w' res].
    simpl in *. subst w'. apply app_nil_r. }
  rewrite E, panel_size_warnings.
  destruct fw, fh, ratio,
    (outcome (sep_sequence hs (c - 1) Msg.hsep_length)),
    (outcome (sep_sequence vs (r - 1) Msg.vsep_length));
    (split; [auto |]);
    (split; [try discriminate; intros _; repeat split; try discriminate; eauto
            | intros (A & B & C & [? D] & [? F]); congruence]).
Qed.

Lemma constructor_warnings_witness :
  warnings (FigureSizeLocator_init 2 3 (Some 42%Q) (Some 52%Q) (Some 2%Q)
              (Scalar 1) (Scalar 2) 5 5 5 5 "mm")
  = [Msg.ratio_ignored].
Proof.
  apply (proj2 (proj2 (constructor_warnings 2 3 0%Q 0%Q (Some 42%Q) (Some 52%Q)
                         (Some 2%Q) (Scalar 1) (Scalar 2) 5%Q 5%Q 5%Q 5%Q
                         "mm"%string))).
  repeat split; try discriminate; eexists; reflexivity.
Defined.

(** ** Position of an item in the iterator *)

Lemma nth_error_range (n i : Z) :
  0 <= i < n -> nth_error (range n) (Z.to_nat i) = Some i.
Proof.
  intros Hi. unfold range. rewrite nth_error_map, nth_error_seq.
  destruct (Nat.ltb_spec (Z.to_nat i) (Z.to_nat n)) as [_ | Hge]; [| lia].
  simpl. f_equal. lia.
Qed.

Lemma length_range (n : Z) : List.length (range n) = Z.to_nat n.
Proof. unfold range. now rewrite length_map, length_seq. Qed.

Lemma length_product {A B} (g0 : list A) (g1 : list B) :
  List.length (product g0 g1) = (List.length g0 * List.length g1)%nat.
Proof.
  unfold product. induction g0 as [| a g0 IH]; simpl; [reflexivity |].
  now rewrite length_app, length_map, IH.
Qed.

Lemma nth_error_product {A B} (g0 : list A) (g1 : list B) (i j : nat) (a : A) (b : B) :
  nth_error g0 i = Some a -> nth_error g1 j = Some b ->
  nth_error (product g0 g1) (i * List.length g1 + j) = Some (a, b).
Proof.
  unfold product. revert i. induction g0 as [| a0 g0 IH]; intros i Ha Hb.
  - destruct i; discriminate.
  - assert (Hj : (j < List.length g1)%nat)
      by (apply nth_error_Some; congruence).
    simpl. destruct i as [| i]; simpl in Ha.
    + inversion Ha; subst. simpl.
      rewrite nth_error_app1 by (rewrite length_map; exact Hj).
      rewrite nth_error_map, Hb. reflexivity.
    + rewrite nth_error_app2 by (rewrite length_map; simpl; lia).
      rewrite length_map.
      replace (S i * List.length g1 + j - List.length g1)%nat
        with (i * List.length g1 + j)%nat by (simpl; lia).
      apply IH; assumption.
Qed.

(** Where a panel sits in the iteration.  With order "row" the panel of
    row [i] and column [j] is item number [i*columns + j], with order
    "column" it is item number [j*rows + i], and both iterations have
    rows*columns items. *)
Theorem panel_position_iterator_index (L : PanelSizeLocator) (i j : Z) :
  0 <= i < L.(rows) ->
  0 <= j < L.(columns) ->
  exists by_row by_column : list (Py rect),
    panel_position_iterator L "row" = ([], Ok by_row) /\
    panel_position_iterator L "column" = ([], Ok by_column) /\
    nth_error by_row (Z.to_nat (i * L.(columns) + j))
    = Some (panel_position L i j) /\
    nth_error by_column (Z.to_nat (j * L.(rows) + i))
    = Some (panel_position L i j) /\
    Z.of_nat (List.length by_row) = L.(rows) * L.(columns) /\
    Z.of_nat (List.length by_column) = L.(rows) * L.(columns).
Proof.
  intros Hi Hj. do 2 eexists.
  split; [apply panel_position_iterator_row |].
  split; [apply panel_position_iterator_column |].
  unfold positions_of.
  pose proof (nth_error_range _ _ Hi) as Ni.
  pose proof (nth_error_range _ _ Hj) as Nj.
  repeat split.
  - rewrite nth_error_map.
    replace (Z.to_nat (i * L.(columns) + j))
      with (Z.to_nat i * List.length (range L.(columns)) + Z.to_nat j)%nat
      by (rewrite length_range; nia).
    rewrite (nth_error_product _ _ _ _ _ _ Ni Nj). reflexivity.
  - rewrite map_map, nth_error_map.
    replace (Z.to_nat (j * L.(rows) + i))
      with (Z.to_nat j * List.length (range L.(rows)) + Z.to_nat i)%nat
      by (rewrite length_range; nia).
    rewrite (nth_error_product _ _ _ _ _ _ Nj Ni). reflexivity.
  - rewrite length_map, length_product, !length_range. nia.
  - rewrite !length_map, length_product, !length_range. nia.
Qed.

Lemma panel_position_iterator_index_witness :
  exists by_row by_column : list (Py rect),
    panel_position_iterator example_locator "row" = ([], Ok by_row) /\
    panel_position_iterator example_locator "column" = ([], Ok by_column) /\
    nth_error by_row (Z.to_nat (1 * 3 + 2))
    = Some (panel_position example_locator 1 2) /\
    nth_error by_column (Z.to_nat (2 * 2 + 1))
    = Some (panel_position example_locator 1 2) /\
    Z.of_nat (List.length by_row) = 2 * 3 /\
    Z.of_nat (List.length by_column) = 2 * 3.
Proof.
  apply (panel_position_iterator_index example_locator 1 2); simpl; lia.
Defined.

(** The two orders yield the same panels: the items of order "column" are
    a rearrangement of the items of order "row". *)
Theorem panel_position_iterator_orders_agree (L : PanelSizeLocator) :
  exists by_row by_column : list (Py rect),
    panel_position_iterator L "row" = ([], Ok by_row) /\
    panel_position_iterator L "column" = ([], Ok by_column) /\
    Permutation by_row by_column.
Proof.
  do 2 eexists.
  split; [apply panel_position_iterator_row |].
  split; [apply panel_position_iterator_column |].
  unfold positions_of. apply Permutation_map.
  destruct (row_major_covers L.(rows) L.(columns)) as [[Nr Ir] _].
  destruct (column_major_covers L.(rows) L.(columns)) as [[Nc Ic] _].
  apply NoDup_Permutation; [exact Nr | exact Nc |].
  intros [r c]. rewrite Ir, Ic. reflexivity.
Qed.

Lemma panel_position_iterator_orders_agree_witness :
  exists by_row by_column : list (Py rect),
    panel_position_iterator example_locator "row" = ([], Ok by_row) /\
    panel_position_iterator example_locator "column" = ([], Ok by_column) /\
    Permutation by_row by_column.
Proof.
  exact (panel_position_iterator_orders_agree example_locator).
Defined.


(** * The code on doubles *)

(** ** Construction *)


Lemma double_truediv_Ok_inv (a b q : float) :
  outcome (Double.truediv a b) = Ok q ->
  (b =? 0)%float = false /\ q = (a / b)%float.
Proof.
  unfold Double.truediv. destruct (b =? 0)%float; simpl; [discriminate |].
  intros H. inversion H. auto.
Qed.

Lemma double_truediv_nonzero (a b : float) :
  (b =? 0)%float = false -> Double.truediv a b = ret (a / b)%float.
Proof. intros H. unfold Double.truediv. rewrite H. reflexivity. Qed.

Lemma double_sep_sequence_Ok_inv
    (s : Double.sep) (n : Z) (msg : string) (l : list float) :
  outcome (Double.sep_sequence s n msg) = Ok l -> len l = Z.max 0 n.
Proof.
  destruct s as [v | vs]; simpl.
  - intros H. inversion H; subst. apply len_list_mul_singleton.
  - destruct (len vs =? n) eqn:E; simpl; [| discriminate].
    intros H. inversion H; subst. apply Z.eqb_eq in E. unfold len in *. lia.
Qed.

Lemma double_init_well_formed
    (r c : Z) (pw ph : float) (hs vs : Double.sep) (pl pr pt pb : float)
    (u : string) (L : Double.PanelSizeLocator) :
  outcome (Double.PanelSizeLocator_init r c pw ph hs vs pl pr pt pb u) = Ok L ->
  Double.well_formed L.
Proof.
  unfold Double.PanelSizeLocator_init. intros H.
  apply outcome_bind_Ok_inv in H as (hs' & Hhs & H).
  apply outcome_bind_Ok_inv in H as (vs' & Hvs & H).
  apply outcome_bind_Ok_inv in H as (cf & _ & H).
  apply outcome_bind_Ok_inv in H as (rf & _ & H).
  apply outcome_bind_Ok_inv in H as (pwf & Hpwf & H).
  apply outcome_bind_Ok_inv in H as (phf & Hphf & H).
  apply double_truediv_Ok_inv in Hpwf as [Nw ->].
  apply double_truediv_Ok_inv in Hphf as [Nh ->].
  apply double_sep_sequence_Ok_inv in Hhs, Hvs.
  simpl in H. inversion H; subst. constructor; simpl; auto.
Qed.

Lemma double_constructed_well_formed (L : Double.PanelSizeLocator) :
  Double.constructed L -> Double.well_formed L.
Proof.
  intros [r c pw ph hs vs pl pr pt pb u H | r c fw fh ratio hs vs pl pr pt pb u H].
  - eapply double_init_well_formed; eassumption.
  - unfold Double.FigureSizeLocator_init in H.
    apply outcome_bind_Ok_inv in H as ([pw ph] & _ & H).
    eapply double_init_well_formed; eassumption.
Qed.

Lemma double_example_locator_init :
  Double.PanelSizeLocator_init 2 3 10 20 (Double.Scalar 1) (Double.Scalar 2)
    5 5 5 5 "mm"
  = ([], Ok double_example_locator).
Proof. vm_compute. reflexivity. Qed.

Lemma double_example_locator_constructed :
  Double.constructed double_example_locator.
Proof.
  apply (Double.by_panel_size _ 2 3 10 20 (Double.Scalar 1) (Double.Scalar 2)
           5 5 5 5 "mm").
  rewrite double_example_locator_init. reflexivity.
Defined.

(** ** panel_position *)

(** On a constructed locator [panel_position] returns as soon as its two
    indices convert to doubles; nothing else in it can raise. *)
Lemma double_panel_position_returns
    (L : Double.PanelSizeLocator) (row column : Z) (fc fr : float) :
  Double.well_formed L ->
  Double.float_of_int column = ret fc ->
  Double.float_of_int (row + 1) = ret fr ->
  Double.panel_position L row column =
    ([], Ok (((L.(Double.padleft) + L.(Double.panelwidth) * fc
               + Double.sum (slice_to L.(Double.hsep) column))
              / L.(Double.figwidth))%float,
             ((L.(Double.figheight) - L.(Double.padtop)
               - L.(Double.panelheight) * fr
               - Double.sum (slice_to L.(Double.vsep) row))
              / L.(Double.figheight))%float,
             L.(Double.panelwidth_fig), L.(Double.panelheight_fig))).
Proof.
  intros W Hc Hr. unfold Double.panel_position.
  rewrite Hc, bind_ret_l, Hr, bind_ret_l.
  rewrite (double_truediv_nonzero _ _ (Double.wf_figwidth_nonzero L W)), bind_ret_l.
  rewrite (double_truediv_nonzero _ _ (Double.wf_figheight_nonzero L W)), bind_ret_l.
  reflexivity.
Qed.





(** Negative indices.  On a constructed locator a negative row or column is
    not rejected either: when the indices convert to doubles the call
    returns a rectangle with the width and height of every panel, the index
    enters the product as it is, and the separations are taken without
    their last [-index] entries. *)
Theorem panel_position_negative_index
    (L : Double.PanelSizeLocator) (row column : Z) (fc fr : float) :
  Double.constructed L ->
  Double.float_of_int column = ret fc ->
  Double.float_of_int (row + 1) = ret fr ->
  exists x y : float,
    Double.panel_position L row column
    = ([], Ok (x, y, L.(Double.panelwidth_fig), L.(Double.panelheight_fig))) /\
    (column < 0 ->
     x = ((L.(Double.padleft) + L.(Double.panelwidth) * fc
           + Double.sum (firstn (List.length L.(Double.hsep)
                                 - Z.to_nat (- column)) L.(Double.hsep)))
          / L.(Double.figwidth))%float) /\
    (row < 0 ->
     y = ((L.(Double.figheight) - L.(Double.padtop)
           - L.(Double.panelheight) * fr
           - Double.sum (firstn (List.length L.(Double.vsep)
                                 - Z.to_nat (- row)) L.(Double.vsep)))
          / L.(Double.figheight))%float).
Proof.
  intros HL Hc Hr. pose proof (double_constructed_well_formed L HL) as W.
  do 2 eexists.
  split; [apply (double_panel_position_returns L row column fc fr W Hc Hr) |].
  split; intros Hneg; unfold slice_to, len;
    (destruct (_ <? 0) eqn:E; [| apply Z.ltb_ge in E; lia]);
    repeat f_equal; lia.
Qed.

Lemma panel_position_negative_index_witness :
  exists x y : float,
    Double.panel_position double_example_locator (-1) (-1)
    = ([], Ok (x, y, (10 / 42)%float, (20 / 52)%float)) /\
    x = ((5 + 10 * -1 + 1) / 42)%float /\
    y = ((52 - 5 - 20 * 0 - 0) / 52)%float.
Proof.
  destruct (panel_position_negative_index double_example_locator (-1) (-1)
              (-1)%float 0%float double_example_locator_constructed
              eq_refl eq_refl) as (x & y & Hpos & Hx & Hy).
  exists x, y. split; [exact Hpos |].
  rewrite (Hx eq_refl), (Hy eq_refl). split; vm_compute; reflexivity.
Defined.

Set Warnings "-inexact-float".

(** C7, as stated, fails on doubles.  With one panel of 1.0 by 0.1 under a
    top padding of 0.7 the rectangle starts below the figure, at a negative
    y; with two panels of 0.1 by 0.1 separated by 0.3 after a left padding of
    0.2 the right panel ends beyond the figure, at x + width > 1. *)
Lemma panel_position_outside_unit_square :
  (exists (L : Double.PanelSizeLocator) (x y w h : float),
     Double.PanelSizeLocator_init 1 1 1 0.1 (Double.Scalar 0) (Double.Scalar 0)
       0 0 0.7 0 "mm" = ([], Ok L) /\
     Double.panel_position L 0 0 = ([], Ok (x, y, w, h)) /\
     (y <? 0)%float = true) /\
  (exists (L : Double.PanelSizeLocator) (x y w h : float),
     Double.PanelSizeLocator_init 1 2 0.1 0.1 (Double.Scalar 0.3)
       (Double.Scalar 0) 0.2 0 0 0 "mm" = ([], Ok L) /\
     Double.panel_position L 0 1 = ([], Ok (x, y, w, h)) /\
     (1 <? x + w)%float = true).
Proof.
  split; do 5 eexists;
    (split; [vm_compute; reflexivity |]);
    (split; [vm_compute; reflexivity |]); vm_compute; reflexivity.
Qed.
